(** * Calibration table viewer: parsers, interpolation and statistics

    A shallow embedding of the computational core of
    [src/components/DataUploader.tsx] and [src/components/ChartPage.tsx].

    Modelling conventions.
    - A JavaScript [number] is [NaN], a signed infinity or a finite value.
      Finite values are exact rationals in canonical form ([Qc]): the
      rounding of IEEE-754 doubles and the sign of zero are not modelled.
      The properties below are stated through comparisons and through the
      shape of the computation, which the rounding does not change.
    - Strings are byte strings (UTF-8); [trim] strips the ASCII white space
      characters and [toLowerCase] folds ASCII and the basic Cyrillic
      alphabet, which covers every keyword the source looks for.
    - Browser built-ins whose code is not part of the repository
      ([DOMParser], [Date]) are parameters of the sections that use them.
    - A React component is modelled by its state record; an event handler is
      a function from the state of the render that created it to the next
      state, so a handler reads the state values of that render. *)

From Stdlib Require Import Bool List Arith ZArith Lia.
From Stdlib Require Import QArith Qcanon Qcabs.
From Stdlib Require Import Ascii String DecimalString.
From Stdlib Require DecimalNat.
From Stdlib Require Import Sorting.Sorted Sorting.Permutation.
Import ListNotations.

Local Open Scope bool_scope.

(** ** JavaScript numbers *)

Module JsNumber.

Inductive number : Type :=
| NaN : number
| Inf (negative : bool) : number
| Fin (q : Qc) : number.

Definition ofZ (z : Z) : number := Fin (Q2Qc (inject_Z z)).
Definition ofNat (n : nat) : number := ofZ (Z.of_nat n).
Definition zero : number := ofZ 0.
Definition one : number := ofZ 1.

Definition Qc_ltb (a b : Qc) : bool :=
  match (a ?= b)%Qc with Lt => true | _ => false end.
Definition Qc_leb (a b : Qc) : bool :=
  match (a ?= b)%Qc with Gt => false | _ => true end.
Definition Qc_eqb (a b : Qc) : bool :=
  match (a ?= b)%Qc with Eq => true | _ => false end.

Definition isNaN (a : number) : bool :=
  match a with NaN => true | _ => false end.

Definition isFinite (a : number) : bool :=
  match a with Fin _ => true | _ => false end.

(** Unary minus. *)
Definition neg (a : number) : number :=
  match a with
  | NaN => NaN
  | Inf s => Inf (negb s)
  | Fin q => Fin (- q)%Qc
  end.

(** [a + b] *)
Definition add (a b : number) : number :=
  match a, b with
  | NaN, _ | _, NaN => NaN
  | Inf s, Inf t => if Bool.eqb s t then Inf s else NaN
  | Inf s, Fin _ => Inf s
  | Fin _, Inf t => Inf t
  | Fin p, Fin q => Fin (p + q)%Qc
  end.

(** [a - b] *)
Definition sub (a b : number) : number :=
  match a, b with
  | NaN, _ | _, NaN => NaN
  | Inf s, Inf t => if Bool.eqb s t then NaN else Inf s
  | Inf s, Fin _ => Inf s
  | Fin _, Inf t => Inf (negb t)
  | Fin p, Fin q => Fin (p - q)%Qc
  end.

(** [a * b] *)
Definition mul (a b : number) : number :=
  match a, b with
  | NaN, _ | _, NaN => NaN
  | Inf s, Inf t => Inf (xorb s t)
  | Inf s, Fin q =>
      if Qc_eqb q 0 then NaN else Inf (xorb s (Qc_ltb q 0))
  | Fin p, Inf t =>
      if Qc_eqb p 0 then NaN else Inf (xorb (Qc_ltb p 0) t)
  | Fin p, Fin q => Fin (p * q)%Qc
  end.

(** [a / b]; a finite non-zero value divided by zero is an infinity and
    [0 / 0] is [NaN]. *)
Definition div (a b : number) : number :=
  match a, b with
  | NaN, _ | _, NaN => NaN
  | Inf _, Inf _ => NaN
  | Inf s, Fin q => Inf (xorb s (Qc_ltb q 0))
  | Fin _, Inf _ => Fin 0
  | Fin p, Fin q =>
      if Qc_eqb q 0
      then (if Qc_eqb p 0 then NaN else Inf (Qc_ltb p 0))
      else Fin (p / q)%Qc
  end.

(** [a < b] *)
Definition lt (a b : number) : bool :=
  match a, b with
  | NaN, _ | _, NaN => false
  | Inf s, Inf t => s && negb t
  | Inf s, Fin _ => s
  | Fin _, Inf t => negb t
  | Fin p, Fin q => Qc_ltb p q
  end.

(** [a <= b] *)
Definition le (a b : number) : bool :=
  match a, b with
  | NaN, _ | _, NaN => false
  | Inf s, Inf t => s || negb t
  | Inf s, Fin _ => s
  | Fin _, Inf t => negb t
  | Fin p, Fin q => Qc_leb p q
  end.

(** [a === b] *)
Definition eqb (a b : number) : bool :=
  match a, b with
  | Inf s, Inf t => Bool.eqb s t
  | Fin p, Fin q => Qc_eqb p q
  | _, _ => false
  end.

(** [a > b] and [a >= b] *)
Definition gt (a b : number) : bool := lt b a.
Definition ge (a b : number) : bool := le b a.

(** [Math.abs] *)
Definition abs (a : number) : number :=
  match a with
  | NaN => NaN
  | Inf _ => Inf false
  | Fin q => Fin (Qcabs q)
  end.

(** [ToBoolean] of a number: [NaN] and zero are falsy. *)
Definition truthy (a : number) : bool :=
  match a with
  | NaN => false
  | Inf _ => true
  | Fin q => negb (Qc_eqb q 0)
  end.

(** [a || b] on numbers. *)
Definition or_else (a b : number) : number :=
  if truthy a then a else b.

(** [Math.max(...l)]: [-Infinity] for no argument, [NaN] as soon as one
    argument is [NaN]. *)
Definition max2 (a b : number) : number :=
  match a, b with
  | NaN, _ | _, NaN => NaN
  | _, _ => if lt a b then b else a
  end.

Definition Math_max (l : list number) : number :=
  fold_left max2 l (Inf true).

End JsNumber.
Import JsNumber.

Declare Scope js_scope.
Delimit Scope js_scope with js.
Infix "+" := add : js_scope.
Infix "-" := sub : js_scope.
Infix "*" := mul : js_scope.
Infix "/" := div : js_scope.
Infix "<" := lt : js_scope.
Infix "<=" := le : js_scope.
Infix ">" := gt : js_scope.
Infix ">=" := ge : js_scope.

(** ** Strings *)

Module JsString.

Local Open Scope string_scope.

Definition code (c : ascii) : nat := nat_of_ascii c.

Definition between (lo hi : nat) (c : ascii) : bool :=
  (lo <=? code c)%nat && (code c <=? hi)%nat.

(** White space removed by [trim] and skipped by [parseInt] and
    [parseFloat]: TAB, LF, VT, FF, CR and SPACE. *)
Definition isWhiteSpace (c : ascii) : bool :=
  between 9 13 c || (code c =? 32)%nat.

Definition isEmpty (s : string) : bool :=
  match s with EmptyString => true | String _ _ => false end.

Fixpoint trimStart (s : string) : string :=
  match s with
  | EmptyString => EmptyString
  | String c s' => if isWhiteSpace c then trimStart s' else s
  end.

Fixpoint trimEnd (s : string) : string :=
  match s with
  | EmptyString => EmptyString
  | String c s' =>
      let t := trimEnd s' in
      if isWhiteSpace c && isEmpty t then EmptyString else String c t
  end.

(** [s.trim()] *)
Definition trim (s : string) : string := trimEnd (trimStart s).

(** [s.split(sep)] for a separator of one character. *)
Fixpoint split (sep : ascii) (s : string) : list string :=
  match s with
  | EmptyString => [EmptyString]
  | String c s' =>
      if Ascii.eqb c sep then EmptyString :: split sep s'
      else match split sep s' with
           | h :: t => String c h :: t
           | [] => [String c EmptyString]
           end
  end.

(** [s.includes(needle)] *)
Fixpoint includes (s needle : string) : bool :=
  String.prefix needle s ||
  match s with
  | EmptyString => false
  | String _ s' => includes s' needle
  end.

(** [s.replace(/c/g, '')] for a pattern of one character. *)
Fixpoint removeAll (c : ascii) (s : string) : string :=
  match s with
  | EmptyString => EmptyString
  | String d s' =>
      if Ascii.eqb d c then removeAll c s' else String d (removeAll c s')
  end.

Definition shift_up (k : nat) (c : ascii) : ascii := ascii_of_nat (code c + k).
Definition shift_down (k : nat) (c : ascii) : ascii := ascii_of_nat (code c - k).

(** [s.toLowerCase()] on UTF-8 bytes: A-Z, and the capital letters
    U+0400-U+042F, whose encodings are the lead byte 0xD0 followed by
    0x80-0xAF. *)
Fixpoint toLowerCase (s : string) : string :=
  match s with
  | EmptyString => EmptyString
  | String c s' =>
      if between 65 90 c then String (shift_up 32 c) (toLowerCase s')
      else if (code c =? 208)%nat then
        match s' with
        | String d s'' =>
            if between 128 143 d then
              String (ascii_of_nat 209) (String (shift_up 16 d) (toLowerCase s''))
            else if between 144 159 d then
              String c (String (shift_up 32 d) (toLowerCase s''))
            else if between 160 175 d then
              String (ascii_of_nat 209) (String (shift_down 32 d) (toLowerCase s''))
            else String c (String d (toLowerCase s''))
        | EmptyString => String c EmptyString
        end
      else String c (toLowerCase s')
  end.

(** Value of [c] as a digit in the given radix. *)
Definition digitValue (radix : nat) (c : ascii) : option Z :=
  let v :=
    if between 48 57 c then Some (code c - 48)%nat
    else if between 97 122 c then Some (code c - 87)%nat
    else if between 65 90 c then Some (code c - 55)%nat
    else None in
  match v with
  | Some d => if (d <? radix)%nat then Some (Z.of_nat d) else None
  | None => None
  end.

(** Reads the longest prefix of digits: the accumulated value, the number
    of digits read and the rest of the string. *)
Fixpoint takeDigits (radix : nat) (s : string) (acc : Z) (n : nat)
  : Z * nat * string :=
  match s with
  | EmptyString => (acc, n, s)
  | String c s' =>
      match digitValue radix c with
      | Some d => takeDigits radix s' (Z.of_nat radix * acc + d)%Z (S n)
      | None => (acc, n, s)
      end
  end.

(** A leading [+] or [-]: whether the number is negative, and the rest. *)
Definition takeSign (s : string) : bool * string :=
  match s with
  | String "-" s' => (true, s')
  | String "+" s' => (false, s')
  | _ => (false, s)
  end.

Definition signed (negative : bool) (z : Z) : Z :=
  if negative then (- z)%Z else z.

(** [parseInt(s)] with no radix argument: leading white space is skipped,
    then an optional sign, an optional [0x] or [0X] prefix selecting radix
    16, and the longest prefix of digits; [NaN] when there is no digit. *)
Definition parseInt (s : string) : number :=
  let (negative, s1) := takeSign (trimStart s) in
  let (radix, s2) :=
    match s1 with
    | String "0" (String "x" r) | String "0" (String "X" r) => (16%nat, r)
    | _ => (10%nat, s1)
    end in
  match takeDigits radix s2 0 0 with
  | (_, O, _) => NaN
  | (z, S _, _) => ofZ (signed negative z)
  end.

(** The value [m * 10^e] of a decimal literal. *)
Definition decimal (m e : Z) : number :=
  if (0 <=? e)%Z then ofZ (m * 10 ^ e)
  else Fin (Q2Qc (Qmake m (Z.to_pos (10 ^ (- e))))).

(** The exponent part [e], [e+] or [e-] followed by at least one digit;
    0 when there is none. *)
Definition takeExponent (s : string) : Z :=
  match s with
  | String "e" r | String "E" r =>
      let (negative, r') := takeSign r in
      match takeDigits 10 r' 0 0 with
      | (_, O, _) => 0%Z
      | (e, S _, _) => signed negative e
      end
  | _ => 0%Z
  end.

(** [parseFloat(s)]: leading white space is skipped, then the longest
    prefix that is a decimal literal is read: an optional sign, then
    [Infinity] or digits with an optional fraction and an optional
    exponent; [NaN] when there is neither an integer nor a fraction digit. *)
Definition parseFloat (s : string) : number :=
  let (negative, s1) := takeSign (trimStart s) in
  if String.prefix "Infinity" s1 then Inf negative
  else
    let '(i, ni, s2) := takeDigits 10 s1 0 0 in
    let '(m, nf, s3) :=
      match s2 with
      | String "." r => takeDigits 10 r i 0
      | _ => (i, O, s2)
      end in
    match (ni + nf)%nat with
    | O => NaN
    | S _ => decimal (signed negative m) (takeExponent s3 - Z.of_nat nf)
    end.

(** Decimal text of a natural number, as a template literal prints it. *)
Definition ofNat (n : nat) : string :=
  NilZero.string_of_uint (Nat.to_uint n).

End JsString.

(** ** Shared data model *)

(** [interface DataPoint { x: number; y: number; name: string }]; the
    interfaces [CalibrationData] and [RawData] of [ChartPage.tsx] have the
    same shape. *)
Record DataPoint : Type := mkDataPoint {
  x : number;
  y : number;
  name : string
}.

(** The outcome of code that may [throw]. *)
Inductive result (A : Type) : Type :=
| Ok (value : A) : result A
| Throw (message : string) : result A.
Arguments Ok {A} value.
Arguments Throw {A} message.

(** [Array.prototype.sort(comparefn)].  The language requires the sort to
    be stable and, for a consistent comparator, fixes the result; it is
    modelled by a stable insertion sort.  An element moves behind another
    one only when the comparator is positive, so a [NaN] result counts as
    zero, as the language says. *)
Section ArraySort.
Context {A : Type}.
Variable comparefn : A -> A -> number.

Fixpoint insert (a : A) (l : list A) : list A :=
  match l with
  | [] => [a]
  | b :: l' =>
      if (comparefn a b > zero)%js then b :: insert a l' else a :: l
  end.

Fixpoint Array_sort (l : list A) : list A :=
  match l with
  | [] => []
  | a :: l' => insert a (Array_sort l')
  end.
End ArraySort.

(** The comparator [(a, b) => a.x - b.x] used by both files. *)
Definition byX (a b : DataPoint) : number := (x a - x b)%js.

(** ** DataUploader.tsx *)

Module DataUploader.

(** What the parser reads of a DOM element. *)
Record Element : Type := mkElement {
  attributes : list (string * string);
  textContent : option string
}.

(** [element.getAttribute(name)], [null] when the attribute is absent. *)
Fixpoint getAttribute (attrs : list (string * string)) (key : string)
  : option string :=
  match attrs with
  | [] => None
  | (k, v) :: rest => if String.eqb k key then Some v else getAttribute rest key
  end.

(** What the parser reads of the parsed document: the results of
    [querySelector('calibrationDate')] and of
    [querySelectorAll('sensor value')], in document order. *)
Record XMLDocument : Type := mkXMLDocument {
  calibrationDateElement : option Element;
  valueElements : list Element
}.

(** A [string | null] in a condition: [null] and the empty string are
    falsy. *)
Definition truthyString (s : option string) : bool :=
  match s with
  | Some t => negb (JsString.isEmpty t)
  | None => false
  end.

(** [s || ''] *)
Definition orEmpty (s : option string) : string :=
  match s with Some t => t | None => EmptyString end.

(** The state of the component: [volumeDivider] and [lastXmlData].  The
    status message, which no computation reads, is left out. *)
Record State : Type := mkState {
  volumeDivider : number;
  lastXmlData : string
}.

(** [useState<number>(1)] and [useState<string>('')]. *)
Definition initialState : State :=
  {| volumeDivider := one; lastXmlData := EmptyString |}.

Section Parsers.

(** [new DOMParser().parseFromString(xmlText, 'text/xml')] followed by
    the two selector queries. *)
Variable parseFromString : string -> XMLDocument.

(** The body of the [forEach] over the value elements: [index] is the
    position of the element among all value elements. *)
Fixpoint collect (volumeDivider : number) (index : nat)
         (elements : list Element) : list DataPoint :=
  match elements with
  | [] => []
  | element :: rest =>
      let code := getAttribute (attributes element) "code" in
      let value := textContent element in
      if truthyString code && truthyString value then
        let originalVolume := JsString.parseInt (orEmpty value) in
        let adjustedVolume := (originalVolume / volumeDivider)%js in
        {| x := JsString.parseInt (orEmpty code);
           y := adjustedVolume;
           name := String.append "Калибровка " (JsString.ofNat (index + 1)) |}
        :: collect volumeDivider (S index) rest
      else collect volumeDivider (S index) rest
  end.

(** [parseCalibrationXML]; [volumeDivider] is the state value that the
    closure captured. *)
Definition parseCalibrationXML (volumeDivider : number) (xmlText : string)
  : list DataPoint * string :=
  let xmlDoc := parseFromString xmlText in
  let calibrationDate :=
    match calibrationDateElement xmlDoc with
    | Some e => orEmpty (textContent e)
    | None => EmptyString
    end in
  let calibrationData := collect volumeDivider 0 (valueElements xmlDoc) in
  (Array_sort byX calibrationData, calibrationDate).

End Parsers.

(** The arguments of a call of the [onCalibrationDataChange] property. *)
Record CalibrationChange : Type := mkCalibrationChange {
  changedData : list DataPoint;
  changedDate : string;
  changedDivider : number
}.

Section Handlers.

Variable parseFromString : string -> XMLDocument.

(** [handleDividerChange], run in the render whose state is [st]: the new
    state, and the call of [onCalibrationDataChange] if there is one.
    [setVolumeDivider] takes effect with the next render, so the
    [parseCalibrationXML] of this render still divides by
    [volumeDivider st]. *)
Definition handleDividerChange (st : State) (newDivider : number)
  : State * option CalibrationChange :=
  let st' := {| volumeDivider := newDivider; lastXmlData := lastXmlData st |} in
  if negb (JsString.isEmpty (lastXmlData st)) then
    let '(data, calibrationDate) :=
      parseCalibrationXML parseFromString (volumeDivider st) (lastXmlData st) in
    (st', Some (mkCalibrationChange data calibrationDate newDivider))
  else (st', None).

(** The [onload] callback of [handleCalibrationUpload], with the text of
    the file: a document without points is an error, which leaves the
    state as it is. *)
Definition handleCalibrationUpload (st : State) (xmlText : string)
  : State * option CalibrationChange :=
  let '(data, calibrationDate) :=
    parseCalibrationXML parseFromString (volumeDivider st) xmlText in
  match data with
  | [] => (st, None)
  | _ :: _ =>
      ({| volumeDivider := volumeDivider st; lastXmlData := xmlText |},
       Some (mkCalibrationChange data calibrationDate (volumeDivider st)))
  end.

End Handlers.

(** The quotation mark removed from the fields of a row. *)
Definition quote : ascii := ascii_of_nat 34.

(** The fields of a row: the line is split at the commas, and each part is
    trimmed and then stripped of its quotation marks. *)
Definition fields (line : string) : list string :=
  map (fun v => JsString.removeAll quote (JsString.trim v))
      (JsString.split "," line).

(** The [map] over the data lines; the first row with fewer than two
    fields throws. *)
Fixpoint parseRows (index : nat) (dataLines : list string)
  : result (list DataPoint) :=
  match dataLines with
  | [] => Ok []
  | line :: rest =>
      match fields line with
      | dateTime :: field1 :: _ =>
          let sensorValue := or_else (JsString.parseFloat field1) zero in
          match parseRows (S index) rest with
          | Ok points =>
              Ok ({| x := JsNumber.ofNat index; y := sensorValue; name := dateTime |}
                  :: points)
          | Throw message => Throw message
          end
      | _ =>
          Throw (String.append "Неверный формат строки "
                   (String.append (JsString.ofNat (index + 1))
                      (String.append ": " line)))
      end
  end.

(** Whether the first line is a header: it has a comma and, in lower case,
    one of the four keywords. *)
Definition hasHeader (firstLine : string) : bool :=
  let lower := JsString.toLowerCase firstLine in
  JsString.includes firstLine "," &&
  (JsString.includes lower "time" || JsString.includes lower "date" ||
   JsString.includes lower "время" || JsString.includes lower "дата").

(** The lines that hold data: all lines, without the first one when it is
    a header. *)
Definition dataLinesOf (csvText : string) : list string :=
  let lines := JsString.split (ascii_of_nat 10) (JsString.trim csvText) in
  let firstLine := hd EmptyString lines in
  if hasHeader firstLine then tl lines else lines.

(** [parseRawDataCSV] *)
Definition parseRawDataCSV (csvText : string) : result (list DataPoint) :=
  match parseRows 0 (dataLinesOf csvText) with
  | Ok points => Ok (filter (fun point => negb (isNaN (y point))) points)
  | Throw message => Throw message
  end.

(** The [onload] callback of [handleRawDataUpload]: the samples handed to
    [onRawDataChange], none when the parser throws or finds no row. *)
Definition handleRawDataUpload (csvText : string) : option (list DataPoint) :=
  match parseRawDataCSV csvText with
  | Ok [] => None
  | Ok data => Some data
  | Throw _ => None
  end.

(** The [onChange] of the divisor field: the number read from the text of
    the field, 1 when the text gives no number or gives 0. *)
Definition dividerOfInput (value : string) : number :=
  or_else (JsString.parseFloat value) one.

End DataUploader.

(** ** ChartPage.tsx *)

Module ChartPage.

(** The state of the page that the computations read: the four [useState]
    values for the data. *)
Record State : Type := mkState {
  calibrationData : list DataPoint;
  rawData : list DataPoint;
  calibrationDate : string;
  volumeDivider : number
}.

(** No data, no date, divisor 1. *)
Definition initialState : State :=
  {| calibrationData := []; rawData := [];
     calibrationDate := EmptyString; volumeDivider := one |}.

(** The two callbacks handed to [DataUploader]. *)
Definition handleCalibrationDataChange (st : State)
           (data : list DataPoint) (date : string) (divider : number) : State :=
  {| calibrationData := data; rawData := rawData st;
     calibrationDate := date; volumeDivider := divider |}.

Definition handleRawDataChange (st : State) (data : list DataPoint) : State :=
  {| calibrationData := calibrationData st; rawData := data;
     calibrationDate := calibrationDate st; volumeDivider := volumeDivider st |}.

(** The loop of [convertSensorCodeToLiters]: the first pair of neighbours
    [sorted[i]], [sorted[i + 1]] whose codes enclose [sensorCode]. *)
Fixpoint findBracket (sensorCode : number) (sorted : list DataPoint)
  : option (DataPoint * DataPoint) :=
  match sorted with
  | lower :: ((upper :: _) as rest) =>
      if (sensorCode >= x lower)%js && (sensorCode <= x upper)%js
      then Some (lower, upper)
      else findBracket sensorCode rest
  | _ => None
  end.

(** The last two lines of [convertSensorCodeToLiters]. *)
Definition linear (lowerPoint upperPoint : DataPoint) (sensorCode : number)
  : number :=
  let ratio := ((sensorCode - x lowerPoint) / (x upperPoint - x lowerPoint))%js in
  (y lowerPoint + ratio * (y upperPoint - y lowerPoint))%js.

(** [convertSensorCodeToLiters].  The sorted copy of a non-empty array is
    not empty, so the defaults given to [hd] and [last] are never read. *)
Definition convertSensorCodeToLiters (calibrationData : list DataPoint)
           (sensorCode : number) : number :=
  match calibrationData with
  | [] => sensorCode
  | p0 :: _ =>
      let sortedCalibration := Array_sort byX calibrationData in
      let firstPoint := hd p0 sortedCalibration in
      let lastPoint := last sortedCalibration p0 in
      if (sensorCode <= x firstPoint)%js then y firstPoint
      else if (sensorCode >= x lastPoint)%js then y lastPoint
      else
        let '(lowerPoint, upperPoint) :=
          match findBracket sensorCode sortedCalibration with
          | Some bracket => bracket
          | None => (firstPoint, lastPoint)
          end in
        linear lowerPoint upperPoint sensorCode
  end.

(** A sample of the chart: time in milliseconds, volume, original label. *)
Record TimedPoint : Type := mkTimedPoint {
  time : number;
  liters : number;
  originalName : string
}.

(** A row of [rawWithCalibration]. *)
Record Deviation : Type := mkDeviation {
  raw : number;
  rawInLiters : number;
  calibration : number;
  deviation : number
}.

(** The numbers shown by [StatisticsPanel], before they are formatted. *)
Record Statistics : Type := mkStatistics {
  calibrationAvg : number;
  rawAvgInLiters : number;
  maxDeviation : number;
  avgDeviation : number;
  sampleCount : nat;
  calibrationPointCount : nat
}.

(** [l.reduce((sum, d) => sum + f(d), 0) / l.length], 0 for no element. *)
Definition average {A : Type} (f : A -> number) (l : list A) : number :=
  match l with
  | [] => zero
  | _ :: _ =>
      (fold_left (fun sum d => (sum + f d)%js) l zero / JsNumber.ofNat (List.length l))%js
  end.

Section Time.

(** [new Date(year, month, day, hours, minutes, seconds).getTime()] *)
Variable Date_getTime :
  number -> number -> number -> number -> number -> number -> number.

(** The message of the error thrown by [parseDateTime]. *)
Definition malformedDate (dateTimeStr : string) : string :=
  String.append "Неверный формат даты: " dateTimeStr.

(** [parseDateTime] for the format DD.MM.YYYY HH:MM:SS. *)
Definition parseDateTime (dateTimeStr : string) : result number :=
  match JsString.split " " (JsString.trim dateTimeStr) with
  | [datePart; timePart] =>
      match JsString.split "." datePart, JsString.split ":" timePart with
      | [d; m; yr], [h; mi; s] =>
          let day := JsString.parseInt d in
          let month := (JsString.parseInt m - one)%js in
          let year := JsString.parseInt yr in
          let hours := JsString.parseInt h in
          let minutes := JsString.parseInt mi in
          let seconds := JsString.parseInt s in
          Ok (Date_getTime year month day hours minutes seconds)
      | _, _ => Throw (malformedDate dateTimeStr)
      end
  | _ => Throw (malformedDate dateTimeStr)
  end.

(** One step of the [map] that builds [rawDataWithTimestamp]: [None] is
    the [null] of the [catch] branch. *)
Definition withTimestamp (calibrationData : list DataPoint)
           (item : DataPoint) : option TimedPoint :=
  match parseDateTime (name item) with
  | Ok t =>
      Some {| time := t;
              liters := convertSensorCodeToLiters calibrationData (y item);
              originalName := name item |}
  | Throw _ => None
  end.

(** [rawDataWithTimestamp]: the [map] and the [filter] that removes the
    [null] entries. *)
Fixpoint rawDataWithTimestamp (calibrationData rawData : list DataPoint)
  : list TimedPoint :=
  match rawData with
  | [] => []
  | item :: rest =>
      match withTimestamp calibrationData item with
      | Some point => point :: rawDataWithTimestamp calibrationData rest
      | None => rawDataWithTimestamp calibrationData rest
      end
  end.

(** [findClosestCalibration]: the code and the volume of the point
    found.  [reduce] without an initial value starts from the first
    element. *)
Definition findClosestCalibration (calibrationData : list DataPoint)
           (sensorCode : number) : number * number :=
  match calibrationData with
  | [] => (zero, zero)
  | first :: rest =>
      let found :=
        fold_left
          (fun closest cal =>
             if (abs (x cal - sensorCode) < abs (x closest - sensorCode))%js
             then cal else closest)
          rest first in
      (x found, y found)
  end.

(** One step of the [map] that builds [rawWithCalibration]. *)
Definition withCalibration (calibrationData : list DataPoint)
           (item : DataPoint) : Deviation :=
  let closest := findClosestCalibration calibrationData (y item) in
  let inLiters := convertSensorCodeToLiters calibrationData (y item) in
  {| raw := y item;
     rawInLiters := inLiters;
     calibration := snd closest;
     deviation := abs (inLiters - snd closest)%js |}.

(** [rawWithCalibration]: one row for every raw sample. *)
Definition rawWithCalibration (calibrationData rawData : list DataPoint)
  : list Deviation :=
  map (withCalibration calibrationData) rawData.

(** [StatisticsPanel]: [None] stands for the panel that asks for data. *)
Definition StatisticsPanel (calibrationData rawData : list DataPoint)
  : option Statistics :=
  match calibrationData, rawData with
  | [], [] => None
  | _, _ =>
      let deviations := rawWithCalibration calibrationData rawData in
      Some {|
        calibrationAvg := average y calibrationData;
        rawAvgInLiters :=
          average liters (rawDataWithTimestamp calibrationData rawData);
        maxDeviation :=
          match deviations with
          | [] => zero
          | _ :: _ => Math_max (map deviation deviations)
          end;
        avgDeviation := average deviation deviations;
        sampleCount := List.length rawData;
        calibrationPointCount := List.length calibrationData |}
  end.

End Time.

Section CsvExport.

(** The clock, and the two ways in which the export prints a number: in a
    template literal and with [toFixed]. *)
Variable Date_getTime :
  number -> number -> number -> number -> number -> number -> number.
Variable toString : number -> string.
Variable toFixed : number -> nat -> string.

(** [rawData.find(r => r.name === label)?.y || 0] *)
Definition exportedCode (rawData : list DataPoint) (label : string) : number :=
  match find (fun r => String.eqb (name r) label) rawData with
  | Some r => or_else (y r) zero
  | None => zero
  end.

(** The first line of the export; the divisor is named when it is not 1. *)
Definition exportHeader (volumeDivider : number) : string :=
  let dividerInfo :=
    if negb (eqb volumeDivider one)
    then String.append " (делитель: " (String.append (toString volumeDivider) ")")
    else EmptyString in
  String.append "Тип,Дата/Время,Код датчика,Объем (л)" dividerInfo.

(** The line of a calibration point. *)
Definition calibrationRow (calibrationDate : string) (d : DataPoint) : string :=
  String.concat ","
    ["Калибровка"%string;
     if JsString.isEmpty calibrationDate then "Неизвестно"%string
     else calibrationDate;
     toString (x d); toString (y d)].

(** The line of a sample of the chart. *)
Definition measurementRow (rawData : list DataPoint) (d : TimedPoint) : string :=
  String.concat ","
    ["Измерение"%string; originalName d;
     toString (exportedCode rawData (originalName d));
     toFixed (liters d) 1].

(** The lines that [exportToCSV] joins. *)
Definition exportRows (st : State) : list string :=
  exportHeader (volumeDivider st)
  :: map (calibrationRow (calibrationDate st)) (calibrationData st)
  ++ map (measurementRow (rawData st))
       (rawDataWithTimestamp Date_getTime (calibrationData st) (rawData st)).

(** [exportToCSV]: the text handed to the file. *)
Definition exportToCSV (st : State) : string :=
  String.concat (String (ascii_of_nat 10) EmptyString) (exportRows st).

End CsvExport.

End ChartPage.

(** ** The page: [ChartPage] with its [DataUploader] *)

Module Page.

(** What the user does: loads a calibration file, edits the divisor, loads
    a file of raw data. *)
Inductive Event : Type :=
| CalibrationUpload (xmlText : string)
| DividerChange (newDivider : number)
| RawDataUpload (csvText : string).

(** The state of the uploader and the state of the page around it. *)
Definition State : Type := (DataUploader.State * ChartPage.State)%type.

Definition initialState : State :=
  (DataUploader.initialState, ChartPage.initialState).

Section Steps.

Variable parseFromString : string -> DataUploader.XMLDocument.

(** The effect of a call of [onCalibrationDataChange] on the page. *)
Definition notify (chart : ChartPage.State)
           (call : option DataUploader.CalibrationChange) : ChartPage.State :=
  match call with
  | Some c =>
      ChartPage.handleCalibrationDataChange chart
        (DataUploader.changedData c) (DataUploader.changedDate c)
        (DataUploader.changedDivider c)
  | None => chart
  end.

(** One event, handled in the render whose state is [st]; the component
    is rendered again before the next event. *)
Definition step (st : State) (e : Event) : State :=
  let '(uploader, chart) := st in
  match e with
  | CalibrationUpload xmlText =>
      let '(uploader', call) :=
        DataUploader.handleCalibrationUpload parseFromString uploader xmlText in
      (uploader', notify chart call)
  | DividerChange newDivider =>
      let '(uploader', call) :=
        DataUploader.handleDividerChange parseFromString uploader newDivider in
      (uploader', notify chart call)
  | RawDataUpload csvText =>
      match DataUploader.handleRawDataUpload csvText with
      | Some data => (uploader, ChartPage.handleRawDataChange chart data)
      | None => st
      end
  end.

(** A sequence of events, one render after the other. *)
Definition run (st : State) (events : list Event) : State :=
  fold_left step events st.

(** [step] lets the [onload] callback of a calibration file run in the
    render in which the file was chosen.  The browser runs it later, when
    the file has been read, and other events can come in between; the
    definitions that follow keep the files that are being read. *)

(** The [onload] callback of [handleCalibrationUpload], created in a render
    whose divisor was [chosenDivider] and run on the state [st] of the
    moment: it parses with, and reports, the divisor of its own render,
    and [setLastXmlData] leaves the divisor of the uploader as it is. *)
Definition onload (chosenDivider : number) (st : State) (xmlText : string)
  : State :=
  let '(uploader, chart) := st in
  let '(data, calibrationDate) :=
    DataUploader.parseCalibrationXML parseFromString chosenDivider xmlText in
  match data with
  | [] => st
  | _ :: _ =>
      ({| DataUploader.volumeDivider := DataUploader.volumeDivider uploader;
          DataUploader.lastXmlData := xmlText |},
       ChartPage.handleCalibrationDataChange chart data calibrationDate
         chosenDivider)
  end.







End Steps.

End Page.

(** * Vocabulary of the properties *)

(** ** Predicates, reference definitions and example data *)

(** The order of two points by their codes, weak and strict. *)
Definition leCode (p q : DataPoint) : Prop := (x p <= x q)%js = true.
Definition ltCode (p q : DataPoint) : Prop := (x p < x q)%js = true.

(** Codes never decrease along the list. *)
Definition nonDecreasing (l : list DataPoint) : Prop := Sorted leCode l.

(** Codes increase along the list. *)
Definition strictlyIncreasing (l : list DataPoint) : Prop := Sorted ltCode l.

(** Points whose code is a finite number. *)
Definition finiteCode (p : DataPoint) : Prop := isFinite (x p) = true.

(** The points of a list that carry the code [c]. *)
Definition withCode (c : number) (l : list DataPoint) : list DataPoint :=
  filter (fun p => eqb (x p) c) l.

(** The interpolation as the specification words it: the search of the
    source, with a guard that answers the lower volume for a pair of equal
    codes; [None] when no pair encloses the code. *)
Definition spec_interpolate (curve : list DataPoint) (code : number)
  : option number :=
  match curve with
  | [] => Some code
  | firstPoint :: _ =>
      let lastPoint := last curve firstPoint in
      if (code <= x firstPoint)%js then Some (y firstPoint)
      else if (code >= x lastPoint)%js then Some (y lastPoint)
      else
        match ChartPage.findBracket code curve with
        | Some (lo, hi) =>
            if eqb (x hi) (x lo) then Some (y lo)
            else Some (ChartPage.linear lo hi code)
        | None => None
        end
  end.

(** A point with integer code and volume, for the examples. *)
Definition point (code volume : Z) : DataPoint :=
  {| x := ofZ code; y := ofZ volume; name := EmptyString |}.

(** Points whose code is a number. *)
Definition numberCode (p : DataPoint) : Prop := isNaN (x p) = false.

(** The arithmetic mean of a list of numbers. *)
Definition mean (l : list number) : number :=
  (fold_left add l zero / JsNumber.ofNat (List.length l))%js.

(** A stand-in for the clock of the browser: the milliseconds since
    midnight. *)
Definition millisOfDay (year month day hours minutes seconds : number) : number :=
  (((hours * ofZ 60 + minutes) * ofZ 60 + seconds) * ofZ 1000)%js.

(** A raw sample with an integer code, for the examples. *)
Definition sample (index : nat) (label : string) (code : Z) : DataPoint :=
  {| x := JsNumber.ofNat index; y := ofZ code; name := label |}.

(** A value element with a code attribute and a body, for the examples. *)
Definition valueElement (code body : string) : DataUploader.Element :=
  {| DataUploader.attributes := [("code"%string, code)];
     DataUploader.textContent := Some body |}.

(** A document made of value elements only. *)
Definition documentOf (elements : list DataUploader.Element)
  : DataUploader.XMLDocument :=
  {| DataUploader.calibrationDateElement := None;
     DataUploader.valueElements := elements |}.

(** Every code attribute that is not empty starts with an integer. *)
Definition integerCodes (doc : DataUploader.XMLDocument) : Prop :=
  forall e c,
    In e (DataUploader.valueElements doc) ->
    DataUploader.getAttribute (DataUploader.attributes e) "code" = Some c ->
    JsString.isEmpty c = false ->
    isNaN (JsString.parseInt c) = false.

(** The text of the example files, which the stand-in for the parser of
    the browser does not read. *)
Definition exampleXml : string := "<vehicle/>".

(** Four entries, two of them with the code 100. *)
Definition duplicateCodes : DataUploader.XMLDocument :=
  documentOf [valueElement "100" "10"; valueElement "0" "0";
              valueElement "200" "20"; valueElement "100" "7"].

(** One entry whose body has a fraction. *)
Definition fractionalBody : DataUploader.XMLDocument :=
  documentOf [valueElement "5" "10.5"].

(** One entry, of code 289 and volume 100. *)
Definition oneEntry : DataUploader.XMLDocument :=
  documentOf [valueElement "289" "100"].

(** The entries (0, 0), (100, 10) and (200, 20). *)
Definition threeEntries : DataUploader.XMLDocument :=
  documentOf [valueElement "0" "0"; valueElement "100" "10";
              valueElement "200" "20"].

(** Entries in the order of their codes, the first one with a body that
    holds no number: with the codes 0, 5, 5, 10, and with the codes
    0, 5, 10. *)
Definition unreadableBody : DataUploader.XMLDocument :=
  documentOf [valueElement "0" "abc"; valueElement "5" "1";
              valueElement "5" "2"; valueElement "10" "3"].

Definition unreadableFirst : DataUploader.XMLDocument :=
  documentOf [valueElement "0" "abc"; valueElement "5" "1";
              valueElement "10" "2"].

(** The curve that the parser reads from a document, with the divisor 1. *)
Definition parsedCurve (doc : DataUploader.XMLDocument) : list DataPoint :=
  fst (DataUploader.parseCalibrationXML (fun _ => doc) one exampleXml).

(** The line feed that separates the rows. *)
Definition newline : string := String (ascii_of_nat 10) EmptyString.

(** Three rows, the second one with a field that is not a number. *)
Definition malformedRow : string :=
  String.concat newline
    ["28.06.2025 07:03:29,2535"; "28.06.2025 07:05:29,abc";
     "28.06.2025 07:07:29,2534"]%string.

(** ** Further vocabulary *)

(** A point with its volume divided by [divider]. *)
Definition rescaled (divider : number) (p : DataPoint) : DataPoint :=
  {| x := x p; y := (y p / divider)%js; name := name p |}.

(** Whether the parser keeps a value element: its code and its body are
    present and not empty. *)
Definition kept (e : DataUploader.Element) : bool :=
  DataUploader.truthyString
    (DataUploader.getAttribute (DataUploader.attributes e) "code") &&
  DataUploader.truthyString (DataUploader.textContent e).

(** The distance between a code and the code of a point. *)
Definition distance (sensorCode : number) (p : DataPoint) : number :=
  abs (x p - sensorCode)%js.

(** A field of a date or of a time: no white space, no dot, no colon. *)
Fixpoint plainField (s : string) : bool :=
  match s with
  | EmptyString => true
  | String c s' =>
      negb (JsString.isWhiteSpace c) && negb (Ascii.eqb c ".") &&
      negb (Ascii.eqb c ":") && plainField s'
  end.

(** The label made of six fields: D.M.Y H:M:S. *)
Definition dateLabel (d m yr h mi s : string) : string :=
  String.append d (String "." (String.append m (String "." (String.append yr
    (String " " (String.append h (String ":" (String.append mi
      (String ":" s))))))))).

(** The message of the error for the data line at position [index]. *)
Definition rowError (index : nat) (line : string) : string :=
  String.append "Неверный формат строки "
    (String.append (JsString.ofNat (index + 1)) (String.append ": " line)).

(** Whether the label of a sample is accepted by [parseDateTime]. *)
Definition labelParses
           (Date_getTime :
              number -> number -> number -> number -> number -> number -> number)
           (item : DataPoint) : bool :=
  match ChartPage.parseDateTime Date_getTime (name item) with
  | Ok _ => true
  | Throw _ => false
  end.

(** The step of the scan of [findClosestCalibration]. *)
Definition closer (sensorCode : number) (closest cal : DataPoint) : DataPoint :=
  if (abs (x cal - sensorCode) < abs (x closest - sensorCode))%js
  then cal else closest.

(** Whether the character [c] is absent from a string. *)
Fixpoint lacks (c : ascii) (s : string) : bool :=
  match s with
  | EmptyString => true
  | String d s' => negb (Ascii.eqb d c) && lacks c s'
  end.

(** Whether a line has a comma. *)
Definition hasComma (line : string) : bool := JsString.includes line ",".

(** * Properties *)

(** ** Arithmetic and order of numbers *)

Section NumberFacts.

Lemma Qc_ltb_spec (a b : Qc) : Qc_ltb a b = true <-> (a < b)%Qc.
Proof.
  unfold Qc_ltb. rewrite Qclt_alt.
  destruct (a ?= b)%Qc; split; intro H; try reflexivity; discriminate H.
Qed.

Lemma Qc_leb_spec (a b : Qc) : Qc_leb a b = true <-> (a <= b)%Qc.
Proof.
  unfold Qc_leb. rewrite Qcle_alt.
  destruct (a ?= b)%Qc; split; intro H; try reflexivity;
    try discriminate; try (exfalso; apply H; reflexivity).
Qed.

Lemma Qc_eqb_spec (a b : Qc) : Qc_eqb a b = true <-> a = b.
Proof.
  unfold Qc_eqb. rewrite Qceq_alt.
  destruct (a ?= b)%Qc; split; intro H; try reflexivity; discriminate H.
Qed.

Lemma Qc_eqb_refl (a : Qc) : Qc_eqb a a = true.
Proof. apply Qc_eqb_spec. reflexivity. Qed.

Lemma Qc_ltb_irrefl (a : Qc) : Qc_ltb a a = false.
Proof.
  destruct (Qc_ltb a a) eqn:E; [|reflexivity].
  apply Qc_ltb_spec in E. exfalso. exact (Qclt_not_eq _ _ E eq_refl).
Qed.

Lemma Qc_leb_false (a b : Qc) : Qc_leb a b = false -> Qc_ltb b a = true.
Proof.
  intro H. apply Qc_ltb_spec. apply Qcnot_le_lt. intro L.
  apply Qc_leb_spec in L. congruence.
Qed.

Lemma Qc_ltb_leb (a b : Qc) : Qc_ltb a b = true -> Qc_leb a b = true.
Proof.
  intro H. apply Qc_leb_spec, Qclt_le_weak, Qc_ltb_spec, H.
Qed.

Lemma Qc_ltb_leb_false (a b : Qc) : Qc_ltb a b = true -> Qc_leb b a = false.
Proof.
  intro H. apply Qc_ltb_spec in H.
  destruct (Qc_leb b a) eqn:E; [|reflexivity].
  apply Qc_leb_spec in E. exfalso. exact (Qclt_not_le _ _ H E).
Qed.

Lemma Qc_pos_diff (a b : Qc) : Qc_ltb 0 (a - b) = Qc_ltb b a.
Proof.
  destruct (Qc_ltb b a) eqn:E.
  - apply Qc_ltb_spec. apply Qc_ltb_spec in E.
    apply Qclt_minus_iff in E. exact E.
  - destruct (Qc_ltb 0 (a - b)) eqn:F; [|reflexivity].
    apply Qc_ltb_spec in F. apply Qclt_minus_iff in F.
    apply Qc_ltb_spec in F. congruence.
Qed.

Lemma isFinite_Fin (a : number) : isFinite a = true -> exists q, a = Fin q.
Proof. destruct a; simpl; intro H; try discriminate. eauto. Qed.

Lemma eqb_eq (a b : number) : eqb a b = true -> a = b.
Proof.
  destruct a as [|s|p], b as [|t|q]; simpl; intro H; try discriminate.
  - apply Bool.eqb_prop in H. congruence.
  - apply Qc_eqb_spec in H. congruence.
Qed.

(** The comparator is not positive on equal arguments. *)
Lemma sub_self_not_positive (a : number) : (a - a > zero)%js = false.
Proof.
  destruct a as [|s|p]; simpl; try reflexivity.
  - rewrite Bool.eqb_reflx. reflexivity.
  - unfold gt, zero, ofZ. simpl.
    replace (p - p)%Qc with (Q2Qc 0) by ring. apply Qc_ltb_irrefl.
Qed.

(** On finite numbers the comparator is positive exactly when its first
    argument is the larger one. *)
Lemma sub_positive_Fin (p q : Qc) : (Fin p - Fin q > zero)%js = Qc_ltb q p.
Proof. unfold gt, zero, ofZ. simpl. apply Qc_pos_diff. Qed.

(** A comparator that finds [a <= b] is not positive. *)
Lemma le_sub_not_positive (a b : number) :
  (a <= b)%js = true -> (a - b > zero)%js = false.
Proof.
  destruct a as [|s|p], b as [|t|q]; try discriminate.
  - destruct s, t; simpl; intros; try discriminate; reflexivity.
  - destruct s; simpl; intros; try discriminate; reflexivity.
  - destruct t; simpl; intros; try discriminate; reflexivity.
  - intro H. rewrite sub_positive_Fin.
    destruct (Qc_ltb q p) eqn:E; [|reflexivity].
    apply Qc_ltb_leb_false in E. simpl in H. congruence.
Qed.

Lemma lt_le (a b : number) : (a < b)%js = true -> (a <= b)%js = true.
Proof.
  destruct a as [|s|p], b as [|t|q]; simpl; try discriminate; try tauto.
  - destruct s, t; simpl; intros; try discriminate; reflexivity.
  - apply Qc_ltb_leb.
Qed.

Lemma lt_not_ge (a b : number) : (a < b)%js = true -> (a >= b)%js = false.
Proof.
  unfold ge.
  destruct a as [|s|p], b as [|t|q]; simpl; try discriminate;
    try (destruct s; try destruct t; simpl; intros; try discriminate; reflexivity).
  - destruct t; simpl; intros; try discriminate; reflexivity.
  - apply Qc_ltb_leb_false.
Qed.

Lemma lt_trans (a b c : number) :
  (a < b)%js = true -> (b < c)%js = true -> (a < c)%js = true.
Proof.
  destruct a as [|s|p], b as [|t|q], c as [|u|r]; simpl;
    try discriminate; try tauto;
    try (destruct s; try destruct t; try destruct u; simpl;
         intros; try discriminate; reflexivity);
    try (destruct t; try destruct u; simpl; intros; try discriminate; reflexivity).
  intros H1 H2. apply Qc_ltb_spec. apply Qc_ltb_spec in H1, H2.
  exact (Qclt_trans _ _ _ H1 H2).
Qed.

Lemma le_refl_Fin (p : Qc) : (Fin p <= Fin p)%js = true.
Proof. simpl. apply Qc_leb_spec, Qcle_refl. Qed.

Lemma sub_zero (a : number) : (a - zero)%js = a.
Proof.
  destruct a as [|s|p]; simpl; try reflexivity.
  f_equal. unfold zero. simpl. change (Q2Qc (inject_Z 0)) with 0%Qc. ring.
Qed.

(** Every number but [NaN] is below or equal to itself. *)
Lemma le_refl_number (a : number) : isNaN a = false -> (a <= a)%js = true.
Proof.
  destruct a as [|s|p]; simpl; intro H.
  - discriminate H.
  - destruct s; reflexivity.
  - apply Qc_leb_spec, Qcle_refl.
Qed.

(** A comparison that holds has no [NaN] argument. *)
Lemma lt_is_number (a b : number) :
  (a < b)%js = true -> isNaN a = false /\ isNaN b = false.
Proof.
  destruct a, b; simpl; intro H; try discriminate H; split; reflexivity.
Qed.

Lemma le_is_number (a b : number) :
  (a <= b)%js = true -> isNaN a = false /\ isNaN b = false.
Proof.
  destruct a, b; simpl; intro H; try discriminate H; split; reflexivity.
Qed.

(** The order is total on the numbers other than [NaN]. *)
Lemma le_false_lt (a b : number) :
  isNaN a = false -> isNaN b = false ->
  (a <= b)%js = false -> (b < a)%js = true.
Proof.
  destruct a as [|s|p], b as [|t|q]; simpl; try discriminate; intros _ _.
  - destruct s, t; simpl; intro H; try discriminate H; reflexivity.
  - intros ->. reflexivity.
  - intro H. apply negb_false_iff in H. exact H.
  - apply Qc_leb_false.
Qed.

Lemma lt_le_trans (a b c : number) :
  (a < b)%js = true -> (b <= c)%js = true -> (a < c)%js = true.
Proof.
  destruct a as [|s|p], b as [|t|q], c as [|u|r]; simpl;
    try discriminate; try tauto;
    try (destruct s; try destruct t; try destruct u; simpl;
         intros; try discriminate; reflexivity);
    try (destruct t; try destruct u; simpl; intros; try discriminate; reflexivity).
  intros H1 H2. apply Qc_ltb_spec. apply Qc_ltb_spec in H1.
  apply Qc_leb_spec in H2. exact (Qclt_le_trans _ _ _ H1 H2).
Qed.

(** The difference of two numbers in strict order is positive, and the
    two numbers are not equal. *)
Lemma lt_sub_positive (a b : number) :
  (a < b)%js = true -> (b - a > zero)%js = true.
Proof.
  destruct a as [|s|p], b as [|t|q]; simpl; try discriminate.
  - destruct s, t; simpl; intro H; try discriminate H; reflexivity.
  - intros ->. reflexivity.
  - intro H. apply negb_true_iff in H. subst t. reflexivity.
  - intro H. change ((Fin q - Fin p > zero)%js = true).
    rewrite sub_positive_Fin. exact H.
Qed.

Lemma lt_not_eqb (a b : number) : (a < b)%js = true -> eqb b a = false.
Proof.
  destruct a as [|s|p], b as [|t|q]; simpl; try discriminate; try reflexivity.
  - destruct s, t; simpl; intro H; try discriminate H; reflexivity.
  - intro H. destruct (Qc_eqb q p) eqn:E; [|reflexivity].
    apply Qc_eqb_spec in E. subst q. rewrite Qc_ltb_irrefl in H. discriminate H.
Qed.

End NumberFacts.

(** Comparisons and arithmetic are unfolded by their lemmas only. *)
Arguments lt : simpl never.
Arguments le : simpl never.
Arguments gt : simpl never.
Arguments ge : simpl never.
Arguments sub : simpl never.
Arguments add : simpl never.
Arguments mul : simpl never.
Arguments div : simpl never.

(** ** The sort *)

Section SortFacts.

Context {A : Type}.
Variable comparefn : A -> A -> number.

Lemma insert_perm (a : A) (l : list A) :
  Permutation (insert comparefn a l) (a :: l).
Proof.
  induction l as [|b l IH]; simpl.
  - apply Permutation_refl.
  - destruct (comparefn a b > zero)%js.
    + apply Permutation_trans with (b :: a :: l).
      * apply perm_skip, IH.
      * apply perm_swap.
    + apply Permutation_refl.
Qed.

Lemma Array_sort_perm (l : list A) : Permutation (Array_sort comparefn l) l.
Proof.
  induction l as [|a l IH]; simpl.
  - apply perm_nil.
  - apply Permutation_trans with (a :: Array_sort comparefn l).
    + apply insert_perm.
    + apply perm_skip, IH.
Qed.

Lemma Array_sort_In (l : list A) (a : A) :
  In a (Array_sort comparefn l) <-> In a l.
Proof.
  split; apply Permutation_in.
  - apply Array_sort_perm.
  - apply Permutation_sym, Array_sort_perm.
Qed.

(** Stability: elements that the comparator never separates keep their
    order. *)
Section Stable.
Variable keep : A -> bool.
Hypothesis together :
  forall a b, keep a = true -> keep b = true ->
              (comparefn a b > zero)%js = false.

Lemma insert_filter (a : A) (l : list A) :
  filter keep (insert comparefn a l) = filter keep (a :: l).
Proof.
  induction l as [|b l IH]; [reflexivity|].
  simpl. destruct (comparefn a b > zero)%js eqn:E; [|reflexivity].
  simpl. rewrite IH. simpl.
  destruct (keep a) eqn:Ka, (keep b) eqn:Kb; try reflexivity.
  rewrite (together a b Ka Kb) in E. discriminate E.
Qed.

Lemma Array_sort_filter (l : list A) :
  filter keep (Array_sort comparefn l) = filter keep l.
Proof.
  induction l as [|a l IH]; [reflexivity|].
  simpl Array_sort. rewrite insert_filter. simpl. rewrite IH. reflexivity.
Qed.
End Stable.

(** An array that the comparator finds in order is left as it is. *)
Lemma Array_sort_id (l : list A) :
  Sorted (fun a b => (comparefn a b > zero)%js = false) l ->
  Array_sort comparefn l = l.
Proof.
  induction 1 as [|a l Hs IH Hd]; [reflexivity|].
  simpl. rewrite IH. destruct Hd as [|b l Hab]; [reflexivity|].
  simpl. rewrite Hab. reflexivity.
Qed.

End SortFacts.

(** ** Curves ordered by code *)

Section CurveFacts.

Lemma HdRel_insert (R : DataPoint -> DataPoint -> Prop) b a l :
  R b a -> HdRel R b l -> HdRel R b (insert byX a l).
Proof.
  intros Hba Hd. destruct Hd as [|c l Hbc]; simpl.
  - constructor. exact Hba.
  - destruct (byX a c > zero)%js; constructor; assumption.
Qed.

Lemma insert_nonDecreasing a l :
  finiteCode a -> Forall finiteCode l ->
  nonDecreasing l -> nonDecreasing (insert byX a l).
Proof.
  intros Fa Fl Hs. induction Hs as [|b l Hs IH Hd]; simpl.
  - repeat constructor.
  - inversion Fl as [|? ? Fb Fl']; subst.
    apply isFinite_Fin in Fa as Ea. destruct Ea as [qa Ea].
    apply isFinite_Fin in Fb as Eb. destruct Eb as [qb Eb].
    unfold byX at 1. rewrite Ea, Eb, sub_positive_Fin.
    destruct (Qc_ltb qb qa) eqn:E.
    + constructor.
      * apply IH. exact Fl'.
      * apply HdRel_insert; [|exact Hd].
        unfold leCode. rewrite Ea, Eb. apply Qc_ltb_leb, E.
    + constructor.
      * constructor; assumption.
      * constructor. unfold leCode. rewrite Ea, Eb. unfold le.
        destruct (Qc_leb qa qb) eqn:L; [reflexivity|].
        apply Qc_leb_false in L. congruence.
Qed.

Lemma insert_Forall (P : DataPoint -> Prop) a l :
  P a -> Forall P l -> Forall P (insert byX a l).
Proof.
  intros Pa Pl.
  apply (Permutation_Forall (Permutation_sym (insert_perm byX a l))).
  constructor; assumption.
Qed.

Lemma Array_sort_Forall (P : DataPoint -> Prop) l :
  Forall P l -> Forall P (Array_sort byX l).
Proof.
  apply Permutation_Forall, Permutation_sym, Array_sort_perm.
Qed.

(** Sorting finite codes gives codes that never decrease. *)
Lemma Array_sort_nonDecreasing l :
  Forall finiteCode l -> nonDecreasing (Array_sort byX l).
Proof.
  induction 1 as [|a l Fa Fl IH]; simpl.
  - constructor.
  - apply insert_nonDecreasing; [exact Fa| |exact IH].
    apply Array_sort_Forall, Fl.
Qed.

(** Points with the same code are never separated by the comparator. *)
Lemma same_code_together (c : number) (a b : DataPoint) :
  eqb (x a) c = true -> eqb (x b) c = true -> (byX a b > zero)%js = false.
Proof.
  intros Ha Hb. apply eqb_eq in Ha, Hb. unfold byX. rewrite Ha, Hb.
  apply sub_self_not_positive.
Qed.

Lemma Array_sort_stable (c : number) (l : list DataPoint) :
  withCode c (Array_sort byX l) = withCode c l.
Proof.
  unfold withCode. apply Array_sort_filter. intros a b.
  apply same_code_together.
Qed.

Lemma nonDecreasing_sorted_id l :
  nonDecreasing l -> Array_sort byX l = l.
Proof.
  intro H. apply Array_sort_id.
  induction H as [|a l Hs IH Hd]; constructor; [exact IH|].
  destruct Hd as [|b l Hab]; constructor.
  apply le_sub_not_positive, Hab.
Qed.

Lemma strictlyIncreasing_nonDecreasing l :
  strictlyIncreasing l -> nonDecreasing l.
Proof.
  induction 1 as [|a l Hs IH Hd]; constructor; [exact IH|].
  destruct Hd as [|b l Hab]; constructor. apply lt_le, Hab.
Qed.

Lemma strictlyIncreasing_strong l :
  strictlyIncreasing l -> StronglySorted ltCode l.
Proof.
  apply Sorted_StronglySorted. intros p q r. apply lt_trans.
Qed.


(** In a sorted curve of two points or more, no code is [NaN]. *)
Lemma nonDecreasing_numberCode l :
  forall a, nonDecreasing (a :: l) -> l <> [] -> Forall numberCode (a :: l).
Proof.
  induction l as [|b l IH]; intros a Hs Hne; [congruence|].
  inversion Hs as [|? ? Hs' Hd]; subst.
  inversion Hd as [|? ? Hab]; subst.
  apply le_is_number in Hab. destruct Hab as [Na Nb].
  constructor; [exact Na|].
  destruct l as [|d l].
  - constructor; [exact Nb | constructor].
  - apply IH; [exact Hs' | discriminate].
Qed.

End CurveFacts.

(** ** Interpolation *)

Section InterpolationFacts.

Import ChartPage.

Lemma last_cons (l : list DataPoint) (a d : DataPoint) :
  last (a :: l) d = last l a.
Proof.
  revert a d. induction l as [|b l IH]; intros a d; [reflexivity|].
  change (last (a :: b :: l) d) with (last (b :: l) d).
  rewrite (IH b d), (IH b a). reflexivity.
Qed.

Lemma last_In (l : list DataPoint) (a : DataPoint) : In (last l a) (a :: l).
Proof.
  revert a. induction l as [|b l IH]; intro a; [left; reflexivity|].
  rewrite last_cons. right. apply IH.
Qed.

Lemma lt_asym (a b : number) : (a < b)%js = true -> (b < a)%js = false.
Proof.
  intro H. destruct (b < a)%js eqn:E; [|reflexivity].
  apply lt_le in E. apply lt_not_ge in H. unfold ge in H. congruence.
Qed.

Lemma lt_le_refl_r (a b : number) : (a < b)%js = true -> (b <= b)%js = true.
Proof.
  destruct a as [|s|p], b as [|t|q]; unfold lt, le; try discriminate;
    intros _; try (destruct t; reflexivity); apply Qc_leb_spec, Qcle_refl.
Qed.

Lemma Fin_neq (p q : Qc) : Qc_eqb p q = false -> Fin p <> Fin q.
Proof.
  intros H E. injection E as E. apply Qc_eqb_spec in E. congruence.
Qed.

Lemma add_NaN_r (a : number) : (a + NaN)%js = NaN.
Proof. destruct a; reflexivity. Qed.

Lemma mul_NaN_r (a : number) : (a * NaN)%js = NaN.
Proof. destruct a; reflexivity. Qed.

(** The formula gives [NaN] as soon as one of the two volumes is [NaN]. *)
Lemma linear_NaN_volume lo hi c :
  isNaN (y lo) = true \/ isNaN (y hi) = true -> linear lo hi c = NaN.
Proof.
  unfold linear. cbv zeta. intros [H|H].
  - destruct (y lo); try discriminate H. reflexivity.
  - destruct (y hi); try discriminate H.
    change (NaN - y lo)%js with NaN. rewrite mul_NaN_r. apply add_NaN_r.
Qed.

(** [findBracket] on a list of two points or more. *)
Lemma findBracket_cons c a b (l : list DataPoint) :
  findBracket c (a :: b :: l) =
  if (c >= x a)%js && (c <= x b)%js then Some (a, b)
  else findBracket c (b :: l).
Proof. reflexivity. Qed.

(** The pair that the search finds is a pair of neighbours. *)
Lemma findBracket_adjacent c (l : list DataPoint) :
  forall lo hi,
    findBracket c l = Some (lo, hi) ->
    exists l1 l2, l = l1 ++ lo :: hi :: l2.
Proof.
  induction l as [|a l IH]; intros lo hi H; [discriminate H|].
  destruct l as [|b l]; [discriminate H|].
  rewrite findBracket_cons in H.
  destruct ((c >= x a)%js && (c <= x b)%js).
  - injection H as <- <-. exists [], l. reflexivity.
  - destruct (IH lo hi H) as (l1 & l2 & E).
    exists (a :: l1), l2. rewrite E. reflexivity.
Qed.

(** Between a first code below [c] and a last code above [c], the search
    finds a pair, and the codes of the pair differ. *)
Lemma findBracket_encloses (l : list DataPoint) :
  forall (a : DataPoint) (c : number),
    Forall numberCode (a :: l) ->
    (x a < c)%js = true -> (c < x (last l a))%js = true ->
    exists lo hi,
      findBracket c (a :: l) = Some (lo, hi) /\ ltCode lo hi /\
      (x lo <= c)%js = true /\ (c <= x hi)%js = true /\
      In lo (a :: l) /\ In hi (a :: l).
Proof.
  induction l as [|b l IH]; intros a c Fl Hac Hcl.
  - simpl in Hcl. apply lt_asym in Hac. congruence.
  - assert (Ha : (c >= x a)%js = true) by (apply lt_le, Hac).
    rewrite findBracket_cons. rewrite Ha. cbn [andb].
    destruct (c <= x b)%js eqn:Hcb.
    + exists a, b. repeat split; try assumption; try (simpl; tauto).
      exact (lt_le_trans _ _ _ Hac Hcb).
    + inversion Fl as [|? ? Fa Fl']; subst.
      assert (Hbc : (x b < c)%js = true).
      { inversion Fl' as [|? ? Fb _]; subst.
        apply le_false_lt; [apply (lt_is_number _ _ Hac) | exact Fb | exact Hcb]. }
      rewrite last_cons in Hcl.
      destruct (IH b c Fl' Hbc Hcl)
        as (lo & hi & Hf & Hlt & Hlo & Hhi & Ilo & Ihi).
      exists lo, hi. repeat split; try assumption; right; assumption.
Qed.

(** In a curve of increasing codes, the search at the code of a point
    that is not the first one finds that point as the upper one. *)
Lemma findBracket_at_point (l : list DataPoint) :
  forall a p,
    StronglySorted ltCode (a :: l) -> In p l ->
    exists q, findBracket (x p) (a :: l) = Some (q, p) /\ ltCode q p /\
              In q (a :: l).
Proof.
  induction l as [|b l IH]; intros a p Hs Hin; [destruct Hin|].
  inversion Hs as [|? ? Hs' Hall]; subst.
  assert (Hap : ltCode a p).
  { rewrite Forall_forall in Hall. apply Hall, Hin. }
  assert (Ha : (x p >= x a)%js = true) by (apply lt_le, Hap).
  cbn [findBracket]. rewrite Ha. cbn [andb].
  destruct Hin as [->|Hin].
  - rewrite (lt_le_refl_r _ _ Hap).
    exists a. repeat split; [exact Hap | left; reflexivity].
  - assert (Hbp : ltCode b p).
    { inversion Hs' as [|? ? _ Hall']; subst.
      rewrite Forall_forall in Hall'. apply Hall', Hin. }
    apply lt_not_ge in Hbp as Hn. unfold ge in Hn. rewrite Hn.
    destruct (IH b p Hs' Hin) as (q & Hf & Hqp & Iq).
    exists q. repeat split; try assumption. right; assumption.
Qed.

(** In a curve of increasing codes every point is the last one or has a
    smaller code than the last one. *)
Lemma before_last (l : list DataPoint) :
  forall a p,
    StronglySorted ltCode (a :: l) -> In p (a :: l) ->
    p = last l a \/ ltCode p (last l a).
Proof.
  induction l as [|b l IH]; intros a p Hs Hin.
  - destruct Hin as [->|[]]. left. reflexivity.
  - inversion Hs as [|? ? Hs' Hall]; subst. rewrite last_cons.
    destruct Hin as [->|Hin].
    + right. rewrite Forall_forall in Hall. apply Hall, last_In.
    + apply IH; assumption.
Qed.

End InterpolationFacts.

(** ** Claims on [convertSensorCodeToLiters] *)

Section InterpolationClaims.

Import ChartPage.

(** C5: over an empty calibration curve the conversion returns its input
    unchanged, whatever the input is. *)
Theorem empty_curve_pass_through (sensorCode : number) :
  convertSensorCodeToLiters [] sensorCode = sensorCode.
Proof. reflexivity. Qed.

(** C4, as stated: on a sorted curve the conversion would return the first
    volume for every code up to the first code and the last volume for
    every code from the last code on.  The curve with the points (5, 1)
    and (5, 2) refutes it at the code 5, where the first test wins. *)
Lemma clamp_claim_counterexample :
  ~ (forall cal firstPoint c,
        nonDecreasing cal -> hd_error cal = Some firstPoint ->
        ((c <= x firstPoint)%js = true ->
         convertSensorCodeToLiters cal c = y firstPoint) /\
        ((c >= x (last cal firstPoint))%js = true ->
         convertSensorCodeToLiters cal c = y (last cal firstPoint))).
Proof.
  intro H.
  destruct (H [point 5 1; point 5 2] (point 5 1) (ofZ 5)) as [Hlo Hhi].
  - repeat constructor.
  - reflexivity.
  - specialize (Hlo eq_refl). specialize (Hhi eq_refl).
    rewrite Hlo in Hhi.
    exact (Fin_neq (Q2Qc (inject_Z 1)) (Q2Qc (inject_Z 2)) eq_refl Hhi).
Qed.

(** C4, amended: on a non-empty sorted curve the conversion returns the
    first volume for every code up to the first code, and the last volume
    for every code from the last code on that is above the first code. *)
Theorem clamp_outside_range cal firstPoint c :
  nonDecreasing cal -> hd_error cal = Some firstPoint ->
  ((c <= x firstPoint)%js = true ->
   convertSensorCodeToLiters cal c = y firstPoint) /\
  ((c >= x (last cal firstPoint))%js = true ->
   (c <= x firstPoint)%js = false ->
   convertSensorCodeToLiters cal c = y (last cal firstPoint)).
Proof.
  intros Hs Hhd. destruct cal as [|p0 rest]; [discriminate Hhd|].
  injection Hhd as ->. unfold convertSensorCodeToLiters.
  rewrite (nonDecreasing_sorted_id _ Hs). cbn [hd].
  split.
  - intros ->. reflexivity.
  - intros Hge ->. rewrite Hge. reflexivity.
Qed.

Lemma clamp_outside_range_witness :
  convertSensorCodeToLiters [point 5 1; point 5 2; point 9 4] (ofZ 3) = ofZ 1 /\
  convertSensorCodeToLiters [point 5 1; point 5 2; point 9 4] (ofZ 12) = ofZ 4.
Proof.
  destruct (clamp_outside_range [point 5 1; point 5 2; point 9 4]
              (point 5 1) (ofZ 3)) as [Hlo _];
    [repeat constructor | reflexivity |].
  destruct (clamp_outside_range [point 5 1; point 5 2; point 9 4]
              (point 5 1) (ofZ 12)) as [_ Hhi];
    [repeat constructor | reflexivity |].
  split.
  - apply Hlo. reflexivity.
  - apply Hhi; reflexivity.
Defined.

(** C8, as stated: on a sorted curve with duplicate codes and for a code
    strictly between the first and the last code, the conversion would
    always be a real number.  The curve that the parser reads from the
    entries (0, abc), (5, 1), (5, 2), (10, 3) is sorted and its first
    volume is [NaN]; it refutes the claim at the code 2. *)
Lemma interpolation_result_counterexample :
  ~ (forall cal firstPoint c,
        nonDecreasing cal -> hd_error cal = Some firstPoint ->
        (x firstPoint < c)%js = true ->
        (c < x (last cal firstPoint))%js = true ->
        isFinite (convertSensorCodeToLiters cal c) = true).
Proof.
  intro H.
  specialize (H (parsedCurve unreadableBody)
                (hd (point 0 0) (parsedCurve unreadableBody)) (ofZ 2)).
  assert (Hs : nonDecreasing (parsedCurve unreadableBody))
    by (vm_compute; repeat constructor).
  specialize (H Hs eq_refl eq_refl eq_refl).
  vm_compute in H. discriminate H.
Qed.

(** C8, amended: on a sorted curve, duplicates included, and for a code
    strictly between the first and the last code, the conversion never
    divides by zero.  The search selects a pair whose codes are in strict
    order, so the divisor of the formula is positive, a guard for equal
    codes would never fire, and the conversion is the value of the formula
    on that pair; it agrees with the interpolation that has the guard.
    That value is [NaN] when one of the two volumes is [NaN]. *)
Theorem interpolation_never_divides_by_zero cal firstPoint c :
  nonDecreasing cal -> hd_error cal = Some firstPoint ->
  (x firstPoint < c)%js = true ->
  (c < x (last cal firstPoint))%js = true ->
  exists lo hi,
    findBracket c (Array_sort byX cal) = Some (lo, hi) /\
    ltCode lo hi /\
    (x hi - x lo > zero)%js = true /\
    eqb (x hi) (x lo) = false /\
    convertSensorCodeToLiters cal c = linear lo hi c /\
    spec_interpolate cal c = Some (convertSensorCodeToLiters cal c) /\
    (isNaN (y lo) = true \/ isNaN (y hi) = true ->
     convertSensorCodeToLiters cal c = NaN).
Proof.
  intros Hs Hhd Hlo Hhi.
  destruct cal as [|p0 rest]; [discriminate Hhd|]. injection Hhd as ->.
  rewrite last_cons in Hhi.
  assert (Hnum : Forall numberCode (firstPoint :: rest)).
  { destruct rest as [|b rest'].
    - simpl in Hhi. apply lt_asym in Hlo. congruence.
    - apply nonDecreasing_numberCode; [exact Hs | discriminate]. }
  destruct (findBracket_encloses rest firstPoint c Hnum Hlo Hhi)
    as (lo & hi & Hf & Hlt & _).
  apply lt_not_ge in Hlo as Hlo'. unfold ge in Hlo'.
  assert (Hconv : convertSensorCodeToLiters (firstPoint :: rest) c
                  = linear lo hi c).
  { unfold convertSensorCodeToLiters.
    rewrite (nonDecreasing_sorted_id _ Hs). cbn [hd].
    rewrite last_cons, Hlo', (lt_not_ge _ _ Hhi), Hf. reflexivity. }
  exists lo, hi. rewrite (nonDecreasing_sorted_id _ Hs).
  split; [exact Hf|]. split; [exact Hlt|].
  split; [apply lt_sub_positive, Hlt|].
  split; [apply lt_not_eqb, Hlt|].
  split; [exact Hconv|].
  rewrite Hconv. split; [|apply linear_NaN_volume].
  unfold spec_interpolate.
  rewrite last_cons, Hlo', (lt_not_ge _ _ Hhi), Hf, (lt_not_eqb _ _ Hlt).
  reflexivity.
Qed.

Lemma interpolation_never_divides_by_zero_witness :
  exists lo hi,
    findBracket (ofZ 5)
      (Array_sort byX [point 0 0; point 5 1; point 5 2; point 10 3])
    = Some (lo, hi) /\
    ltCode lo hi /\
    (x hi - x lo > zero)%js = true /\
    eqb (x hi) (x lo) = false /\
    convertSensorCodeToLiters
      [point 0 0; point 5 1; point 5 2; point 10 3] (ofZ 5) = linear lo hi (ofZ 5) /\
    spec_interpolate
      [point 0 0; point 5 1; point 5 2; point 10 3] (ofZ 5) =
    Some (convertSensorCodeToLiters
            [point 0 0; point 5 1; point 5 2; point 10 3] (ofZ 5)) /\
    (isNaN (y lo) = true \/ isNaN (y hi) = true ->
     convertSensorCodeToLiters
       [point 0 0; point 5 1; point 5 2; point 10 3] (ofZ 5) = NaN).
Proof.
  apply (interpolation_never_divides_by_zero
           [point 0 0; point 5 1; point 5 2; point 10 3] (point 0 0) (ofZ 5)).
  - repeat constructor.
  - reflexivity.
  - reflexivity.
  - reflexivity.
Defined.

(** C9, as stated: on a curve whose codes increase strictly, the
    conversion of the code of a point would be the volume of that point.
    The curve that the parser reads from the entries (0, abc), (5, 1),
    (10, 2) has the first volume [NaN]; it refutes the claim at its second
    point, because the formula starts from the volume of the point
    before. *)
Lemma interpolation_through_points_counterexample :
  ~ (forall cal p,
        strictlyIncreasing cal -> In p cal ->
        convertSensorCodeToLiters cal (x p) = y p).
Proof.
  intro H.
  specialize (H (parsedCurve unreadableFirst)
                (nth 1 (parsedCurve unreadableFirst) (point 0 0))).
  assert (Hs : strictlyIncreasing (parsedCurve unreadableFirst))
    by (vm_compute; repeat constructor).
  assert (Hin : In (nth 1 (parsedCurve unreadableFirst) (point 0 0))
                   (parsedCurve unreadableFirst))
    by (apply nth_In; vm_compute; lia).
  specialize (H Hs Hin).
  vm_compute in H. discriminate H.
Qed.

(** C9, amended: on a curve whose codes increase strictly, the conversion
    of the code of a point, when that code is a number, is the volume of
    the point if the point is the first or the last one; for any other
    point the search selects the point together with the point just before
    it, and the conversion is the value of the formula on these two, which
    is [NaN] when the volume of the point before is [NaN]. *)
Theorem interpolation_at_calibration_points cal firstPoint p :
  strictlyIncreasing cal -> hd_error cal = Some firstPoint ->
  In p cal -> numberCode p ->
  (p = firstPoint \/ p = last cal firstPoint ->
   convertSensorCodeToLiters cal (x p) = y p) /\
  (p <> firstPoint -> p <> last cal firstPoint ->
   exists q l1 l2,
     cal = l1 ++ q :: p :: l2 /\ ltCode q p /\
     findBracket (x p) (Array_sort byX cal) = Some (q, p) /\
     convertSensorCodeToLiters cal (x p) = linear q p (x p) /\
     (isNaN (y q) = true -> convertSensorCodeToLiters cal (x p) = NaN)).
Proof.
  intros Hs Hhd Hin Hnum.
  destruct cal as [|p0 rest]; [destruct Hin|]. injection Hhd as ->.
  pose proof (strictlyIncreasing_strong _ Hs) as Hss.
  unfold convertSensorCodeToLiters.
  rewrite (nonDecreasing_sorted_id _ (strictlyIncreasing_nonDecreasing _ Hs)).
  cbn [hd]. rewrite !last_cons.
  assert (Hrefl : (x p <= x p)%js = true) by (apply le_refl_number, Hnum).
  split.
  - intros [-> | ->].
    + rewrite Hrefl. reflexivity.
    + destruct (last_In rest firstPoint) as [E|Hl].
      * rewrite <- E. rewrite <- E in Hrefl. rewrite Hrefl. reflexivity.
      * assert (L : ltCode firstPoint (last rest firstPoint)).
        { inversion Hss as [|? ? _ Hall]; subst.
          rewrite Forall_forall in Hall. apply Hall, Hl. }
        apply lt_not_ge in L. unfold ge in L. rewrite L.
        unfold ge. rewrite Hrefl. reflexivity.
  - intros Hnf Hnl. destruct Hin as [E|Hin']; [congruence|].
    assert (H0p : ltCode firstPoint p).
    { inversion Hss as [|? ? _ Hall]; subst.
      rewrite Forall_forall in Hall. apply Hall, Hin'. }
    apply lt_not_ge in H0p as Hn. unfold ge in Hn. rewrite Hn.
    destruct (before_last rest firstPoint p Hss (or_intror Hin')) as [E|L];
      [congruence|].
    rewrite (lt_not_ge _ _ L).
    destruct (findBracket_at_point rest firstPoint p Hss Hin')
      as (q & Hf & Hqp & _).
    rewrite Hf.
    destruct (findBracket_adjacent _ _ _ _ Hf) as (l1 & l2 & E).
    exists q, l1, l2.
    split; [exact E|]. split; [exact Hqp|]. split; [reflexivity|].
    split; [reflexivity|].
    intro Hq. apply linear_NaN_volume. left. exact Hq.
Qed.

Lemma interpolation_at_calibration_points_witness :
  (point 437 200 = point 0 0 \/
   point 437 200 =
   last [point 0 0; point 289 100; point 437 200; point 617 300] (point 0 0) ->
   convertSensorCodeToLiters
     [point 0 0; point 289 100; point 437 200; point 617 300]
     (x (point 437 200)) = y (point 437 200)) /\
  (point 437 200 <> point 0 0 ->
   point 437 200 <>
   last [point 0 0; point 289 100; point 437 200; point 617 300] (point 0 0) ->
   exists q l1 l2,
     [point 0 0; point 289 100; point 437 200; point 617 300] =
     l1 ++ q :: point 437 200 :: l2 /\ ltCode q (point 437 200) /\
     findBracket (x (point 437 200))
       (Array_sort byX [point 0 0; point 289 100; point 437 200; point 617 300])
     = Some (q, point 437 200) /\
     convertSensorCodeToLiters
       [point 0 0; point 289 100; point 437 200; point 617 300]
       (x (point 437 200)) = linear q (point 437 200) (x (point 437 200)) /\
     (isNaN (y q) = true ->
      convertSensorCodeToLiters
        [point 0 0; point 289 100; point 437 200; point 617 300]
        (x (point 437 200)) = NaN)).
Proof.
  apply (interpolation_at_calibration_points
           [point 0 0; point 289 100; point 437 200; point 617 300]
           (point 0 0) (point 437 200)).
  - repeat constructor.
  - reflexivity.
  - simpl. tauto.
  - reflexivity.
Defined.

End InterpolationClaims.

(** ** Claims on the statistics *)

Section StatisticsClaims.

Import ChartPage.

Variable Date_getTime :
  number -> number -> number -> number -> number -> number -> number.

Lemma rawDataWithTimestamp_app cal l1 l2 :
  rawDataWithTimestamp Date_getTime cal (l1 ++ l2) =
  rawDataWithTimestamp Date_getTime cal l1 ++
  rawDataWithTimestamp Date_getTime cal l2.
Proof.
  induction l1 as [|item l1 IH]; [reflexivity|].
  simpl. destruct (withTimestamp Date_getTime cal item); rewrite IH; reflexivity.
Qed.

Lemma fold_sum_map {A : Type} (f : A -> number) (l : list A) (z : number) :
  fold_left (fun sum d => (sum + f d)%js) l z = fold_left add (map f l) z.
Proof.
  revert z. induction l as [|a l IH]; intro z; [reflexivity|]. simpl. apply IH.
Qed.

Lemma average_mean {A : Type} (f : A -> number) (l : list A) :
  l <> [] -> average f l = mean (map f l).
Proof.
  destruct l as [|a l]; [congruence|]. intros _.
  unfold average, mean. rewrite fold_sum_map, length_map. reflexivity.
Qed.

Lemma StatisticsPanel_some cal rawData :
  cal <> [] \/ rawData <> [] ->
  StatisticsPanel Date_getTime cal rawData =
  Some {|
      calibrationAvg := average y cal;
      rawAvgInLiters :=
        average liters (rawDataWithTimestamp Date_getTime cal rawData);
      maxDeviation :=
        match rawWithCalibration cal rawData with
        | [] => zero
        | _ :: _ => Math_max (map deviation (rawWithCalibration cal rawData))
        end;
      avgDeviation := average deviation (rawWithCalibration cal rawData);
      sampleCount := List.length rawData;
      calibrationPointCount := List.length cal |}.
Proof.
  intros [H|H]; destruct cal, rawData; try congruence; reflexivity.
Qed.

(** C7: a sample whose label makes [parseDateTime] throw is left out of
    the timestamped view, so the average of the measured volumes is the
    one of the other samples; it is counted in the number of samples and
    has its row of deviation from the nearest calibration point. *)
Theorem unparsable_date_sample cal before after item message :
  parseDateTime Date_getTime (name item) = Throw message ->
  rawDataWithTimestamp Date_getTime cal (before ++ item :: after) =
  rawDataWithTimestamp Date_getTime cal (before ++ after) /\
  rawWithCalibration cal (before ++ item :: after) =
  rawWithCalibration cal before ++
  {| raw := y item;
     rawInLiters := convertSensorCodeToLiters cal (y item);
     calibration := snd (findClosestCalibration cal (y item));
     deviation :=
       abs (convertSensorCodeToLiters cal (y item)
            - snd (findClosestCalibration cal (y item)))%js |}
  :: rawWithCalibration cal after /\
  exists st,
    StatisticsPanel Date_getTime cal (before ++ item :: after) = Some st /\
    rawAvgInLiters st =
    average liters (rawDataWithTimestamp Date_getTime cal (before ++ after)) /\
    sampleCount st = S (List.length (before ++ after)) /\
    avgDeviation st =
    average deviation (rawWithCalibration cal (before ++ item :: after)).
Proof.
  intro Hthrow.
  assert (Hview :
            rawDataWithTimestamp Date_getTime cal (before ++ item :: after) =
            rawDataWithTimestamp Date_getTime cal (before ++ after)).
  { rewrite !rawDataWithTimestamp_app. f_equal.
    simpl. unfold withTimestamp. rewrite Hthrow. reflexivity. }
  split; [exact Hview|]. split.
  - unfold rawWithCalibration. rewrite map_app. reflexivity.
  - eexists. split.
    + apply StatisticsPanel_some. right. destruct before; discriminate.
    + cbn [rawAvgInLiters sampleCount avgDeviation]. rewrite Hview.
      repeat split. rewrite !length_app. simpl. lia.
Qed.

(** C10: with no calibration point the nearest point is the synthetic
    point of code 0 and volume 0; the deviation of every sample is the
    absolute value of its code, and the panel shows the mean and the
    maximum of these absolute values. *)
Theorem empty_curve_deviation rawData :
  rawData <> [] ->
  (forall sensorCode, findClosestCalibration [] sensorCode = (zero, zero)) /\
  map deviation (rawWithCalibration [] rawData) =
  map (fun item => abs (y item)) rawData /\
  exists st,
    StatisticsPanel Date_getTime [] rawData = Some st /\
    avgDeviation st = mean (map (fun item => abs (y item)) rawData) /\
    maxDeviation st = Math_max (map (fun item => abs (y item)) rawData).
Proof.
  intro Hne.
  assert (Hdev : map deviation (rawWithCalibration [] rawData) =
                 map (fun item => abs (y item)) rawData).
  { unfold rawWithCalibration. rewrite map_map. apply map_ext.
    intro item. cbn [withCalibration deviation findClosestCalibration snd
                     convertSensorCodeToLiters].
    rewrite sub_zero. reflexivity. }
  split; [reflexivity|]. split; [exact Hdev|].
  eexists. split.
  - apply StatisticsPanel_some. right. exact Hne.
  - cbn [avgDeviation maxDeviation]. split.
    + rewrite average_mean.
      * rewrite Hdev. reflexivity.
      * destruct rawData; [congruence | discriminate].
    + rewrite Hdev. destruct rawData; [congruence | reflexivity].
Qed.

End StatisticsClaims.

(** ** Evaluation of numbers *)

Lemma Fin_canon (p q : Qc) : (this p == this q)%Q -> Fin p = Fin q.
Proof. intro H. f_equal. apply Qc_is_canon, H. Qed.

(** Decides an equation between lists of concrete numbers. *)
Ltac numbers_eq :=
  vm_compute;
  repeat first
    [ reflexivity
    | apply (f_equal2 (@cons number))
    | apply Fin_canon; reflexivity ].

Section StatisticsExamples.

Import ChartPage.

Lemma unparsable_date_sample_witness :
  let cal := [point 0 0; point 100 10] in
  let before := [sample 0 "28.06.2025 07:03:29" 50]%list in
  let item := sample 1 "not-a-date" 70 in
  rawDataWithTimestamp millisOfDay cal (before ++ item :: []) =
  rawDataWithTimestamp millisOfDay cal (before ++ []) /\
  rawWithCalibration cal (before ++ item :: []) =
  rawWithCalibration cal before ++
  {| raw := y item;
     rawInLiters := convertSensorCodeToLiters cal (y item);
     calibration := snd (findClosestCalibration cal (y item));
     deviation :=
       abs (convertSensorCodeToLiters cal (y item)
            - snd (findClosestCalibration cal (y item)))%js |}
  :: rawWithCalibration cal [] /\
  exists st,
    StatisticsPanel millisOfDay cal (before ++ item :: []) = Some st /\
    rawAvgInLiters st =
    average liters (rawDataWithTimestamp millisOfDay cal (before ++ [])) /\
    sampleCount st = S (List.length (before ++ [])) /\
    avgDeviation st =
    average deviation (rawWithCalibration cal (before ++ item :: [])).
Proof.
  intros cal before item.
  apply (unparsable_date_sample millisOfDay cal before [] item
           (malformedDate "not-a-date")).
  reflexivity.
Defined.

Lemma empty_curve_deviation_witness :
  exists st,
    StatisticsPanel millisOfDay []
      [sample 0 "28.06.2025 07:03:29" (-3); sample 1 "28.06.2025 07:05:29" 5]
    = Some st /\
    avgDeviation st = ofZ 4 /\ maxDeviation st = ofZ 5.
Proof.
  destruct (empty_curve_deviation millisOfDay
              [sample 0 "28.06.2025 07:03:29" (-3);
               sample 1 "28.06.2025 07:05:29" 5])
    as (_ & _ & st & Hst & Havg & Hmax); [discriminate|].
  exists st. split; [exact Hst|]. split.
  - rewrite Havg. apply Fin_canon. reflexivity.
  - rewrite Hmax. apply Fin_canon. reflexivity.
Defined.

End StatisticsExamples.

(** ** Claims on the calibration parser *)

Section CalibrationParserClaims.

Import DataUploader.

Variable parseFromString : string -> XMLDocument.

Lemma parseInt_finite (s : string) :
  isNaN (JsString.parseInt s) = false -> isFinite (JsString.parseInt s) = true.
Proof.
  unfold JsString.parseInt.
  destruct (JsString.takeSign (JsString.trimStart s)) as [negative s1].
  match goal with
  | |- context [let (_, _) := ?prefix in _] => destruct prefix as [radix s2]
  end.
  destruct (JsString.takeDigits radix s2 0 0) as [[z n] rest].
  destruct n; [discriminate | reflexivity].
Qed.

Lemma collect_finite divider (elements : list Element) :
  forall index,
    (forall e c, In e elements ->
                 getAttribute (attributes e) "code" = Some c ->
                 JsString.isEmpty c = false ->
                 isNaN (JsString.parseInt c) = false) ->
    Forall finiteCode (collect divider index elements).
Proof.
  induction elements as [|e rest IH]; intros index Hvalid; [constructor|].
  cbn [collect].
  assert (Hrest : Forall finiteCode (collect divider (S index) rest)).
  { apply IH. intros e' c Hin. apply Hvalid. right. exact Hin. }
  destruct (getAttribute (attributes e) "code") as [c|] eqn:Ec;
    [|exact Hrest].
  destruct (truthyString (Some c) && truthyString (textContent e)) eqn:T;
    [|exact Hrest].
  constructor; [|exact Hrest].
  apply andb_true_iff in T. destruct T as [Tc _].
  unfold finiteCode. cbn [x orEmpty]. apply parseInt_finite.
  apply (Hvalid e c (or_introl eq_refl) Ec).
  simpl in Tc. destruct (JsString.isEmpty c); [discriminate Tc | reflexivity].
Qed.

(** C6: for a document whose codes are integers, the points returned by
    [parseCalibrationXML] are the points collected in document order,
    rearranged so that the codes never decrease, and the points that share
    a code come in their document order. *)
Theorem parsed_points_sorted_stable divider xmlText :
  integerCodes (parseFromString xmlText) ->
  let collected :=
    collect divider 0 (valueElements (parseFromString xmlText)) in
  let points := fst (parseCalibrationXML parseFromString divider xmlText) in
  nonDecreasing points /\
  Permutation points collected /\
  forall c, withCode c points = withCode c collected.
Proof.
  intros Hvalid collected points. unfold points, parseCalibrationXML.
  cbn [fst]. fold collected. repeat split.
  - apply Array_sort_nonDecreasing. apply collect_finite. exact Hvalid.
  - apply Array_sort_perm.
  - intro c. apply Array_sort_stable.
Qed.

Lemma collect_In divider (elements : list Element) :
  forall index i e c v,
    nth_error elements i = Some e ->
    getAttribute (attributes e) "code" = Some c ->
    JsString.isEmpty c = false ->
    textContent e = Some v ->
    JsString.isEmpty v = false ->
    In {| x := JsString.parseInt c;
          y := (JsString.parseInt v / divider)%js;
          name := String.append "Калибровка " (JsString.ofNat (index + i + 1)) |}
       (collect divider index elements).
Proof.
  induction elements as [|e0 rest IH]; intros index i e c v Hnth Hc Hce Hv Hve.
  - destruct i; discriminate Hnth.
  - destruct i as [|i]; cbn [collect].
    + injection Hnth as ->. rewrite Hc, Hv. cbn [truthyString orEmpty].
      rewrite Hce, Hve. cbn [negb andb]. left.
      replace (index + 0 + 1)%nat with (index + 1)%nat by lia. reflexivity.
    + simpl in Hnth.
      replace (index + S i + 1)%nat with (S index + i + 1)%nat by lia.
      specialize (IH (S index) i e c v Hnth Hc Hce Hv Hve).
      destruct (truthyString (getAttribute (attributes e0) "code") &&
                truthyString (textContent e0)); [right|]; exact IH.
Qed.

(** C3, amended: for the value element at position [i] with a code and a
    body that are not empty, the parser returns the point whose volume is
    the integer that [parseInt] reads at the start of the body, divided by
    the divisor of the parser. *)
Theorem parsed_volume_is_integer_part divider xmlText i e c v :
  nth_error (valueElements (parseFromString xmlText)) i = Some e ->
  getAttribute (attributes e) "code" = Some c ->
  JsString.isEmpty c = false ->
  textContent e = Some v ->
  JsString.isEmpty v = false ->
  In {| x := JsString.parseInt c;
        y := (JsString.parseInt v / divider)%js;
        name := String.append "Калибровка " (JsString.ofNat (i + 1)) |}
     (fst (parseCalibrationXML parseFromString divider xmlText)).
Proof.
  intros Hnth Hc Hce Hv Hve. unfold parseCalibrationXML. cbn [fst].
  apply Array_sort_In.
  exact (collect_In divider _ 0 i e c v Hnth Hc Hce Hv Hve).
Qed.

End CalibrationParserClaims.

Section CalibrationParserExamples.

Import DataUploader.

Lemma parsed_points_sorted_stable_witness :
  let collected := collect one 0 (valueElements duplicateCodes) in
  let points :=
    fst (parseCalibrationXML (fun _ => duplicateCodes) one exampleXml) in
  nonDecreasing points /\
  Permutation points collected /\
  forall c, withCode c points = withCode c collected.
Proof.
  apply (parsed_points_sorted_stable (fun _ => duplicateCodes) one exampleXml).
  intros e c Hin Hc _. simpl in Hin.
  destruct Hin as [<-|[<-|[<-|[<-|[]]]]];
    injection Hc as <-; reflexivity.
Defined.

(** The two points of code 100 come out in their document order. *)
Example duplicate_codes_in_document_order :
  map name (fst (parseCalibrationXML (fun _ => duplicateCodes) one exampleXml))
  = ["Калибровка 2"; "Калибровка 1"; "Калибровка 4"; "Калибровка 3"]%string.
Proof. reflexivity. Qed.

(** C3, as stated: the volume would be the real value of the body divided
    by the divisor, 10.5 for the body 10.5 and the divisor 1.  The parser
    returns 10. *)
Lemma fractional_body_counterexample :
  let points :=
    fst (parseCalibrationXML (fun _ => fractionalBody) one exampleXml) in
  map y points = [ofZ 10]%list /\
  (JsString.parseFloat "10.5" / one)%js = Fin (Q2Qc (21 # 2)) /\
  map y points <> [(JsString.parseFloat "10.5" / one)%js]%list.
Proof.
  intro points.
  assert (H1 : map y points = [ofZ 10]%list) by numbers_eq.
  assert (H2 : (JsString.parseFloat "10.5" / one)%js = Fin (Q2Qc (21 # 2))).
  { vm_compute. apply Fin_canon. reflexivity. }
  split; [exact H1|]. split; [exact H2|].
  rewrite H1, H2. intro E. injection E as E. discriminate E.
Qed.

Lemma parsed_volume_is_integer_part_witness :
  In {| x := JsString.parseInt "5";
        y := (JsString.parseInt "10.5" / ofZ 2)%js;
        name := String.append "Калибровка " (JsString.ofNat (0 + 1)) |}
     (fst (parseCalibrationXML (fun _ => fractionalBody) (ofZ 2) exampleXml)).
Proof.
  apply (parsed_volume_is_integer_part (fun _ => fractionalBody) (ofZ 2)
           exampleXml 0 (valueElement "5" "10.5") "5" "10.5");
    reflexivity.
Defined.

End CalibrationParserExamples.

(** ** The divisor after the upload *)

Section DividerClaims.

Import DataUploader.

(** The handler of a divisor change reads the divisor of its own render:
    the points it hands over are those of the divisor in force before
    the change, labelled with the new divisor. *)
Lemma handleDividerChange_previous_divider parseFromString st newDivider :
  JsString.isEmpty (lastXmlData st) = false ->
  handleDividerChange parseFromString st newDivider =
  ({| volumeDivider := newDivider; lastXmlData := lastXmlData st |},
   Some {| changedData :=
             fst (parseCalibrationXML parseFromString (volumeDivider st)
                    (lastXmlData st));
           changedDate :=
             snd (parseCalibrationXML parseFromString (volumeDivider st)
                    (lastXmlData st));
           changedDivider := newDivider |}).
Proof.
  intro H. unfold handleDividerChange. rewrite H. cbn [negb].
  destruct (parseCalibrationXML parseFromString (volumeDivider st)
              (lastXmlData st)).
  reflexivity.
Qed.

(** C1, on the code: a document with the entry of code 289 and volume 100
    is loaded, then the divisor is set to 10 and then to 5.  The page
    then holds the volume 100 / 10 with the divisor 5; a single change to
    5 leaves the volume 100.  The claim asks for 100 / 5 in both cases. *)
Theorem divider_change_lags_one_step :
  let twice :=
    snd (Page.run (fun _ => oneEntry) Page.initialState
           [Page.CalibrationUpload exampleXml;
            Page.DividerChange (ofZ 10); Page.DividerChange (ofZ 5)]) in
  let once :=
    snd (Page.run (fun _ => oneEntry) Page.initialState
           [Page.CalibrationUpload exampleXml; Page.DividerChange (ofZ 5)]) in
  map y (ChartPage.calibrationData twice) = [ofZ 10]%list /\
  ChartPage.volumeDivider twice = ofZ 5 /\
  map y (ChartPage.calibrationData once) = [ofZ 100]%list /\
  ChartPage.volumeDivider once = ofZ 5 /\
  (ofZ 100 / ofZ 5)%js = ofZ 20.
Proof.
  intros twice once. repeat split; try reflexivity; numbers_eq.
Qed.

End DividerClaims.

(** ** Claims on the parser of raw data *)

Section RawParserClaims.

Import DataUploader.

Lemma or_else_zero_not_NaN (a : number) : isNaN (or_else a zero) = false.
Proof. destruct a as [|s|q]; try reflexivity. unfold or_else. simpl.
       destruct (Qc_eqb q 0); reflexivity. Qed.

Lemma parseRows_shape (dataLines : list string) :
  forall index points,
    parseRows index dataLines = Ok points ->
    List.length points = List.length dataLines /\
    Forall (fun point => isNaN (y point) = false) points.
Proof.
  induction dataLines as [|line rest IH]; intros index points H.
  - injection H as <-. split; [reflexivity | constructor].
  - cbn [parseRows] in H.
    destruct (fields line) as [|dateTime [|field1 others]]; try discriminate H.
    destruct (parseRows (S index) rest) as [tail|] eqn:E; [|discriminate H].
    injection H as <-. destruct (IH (S index) tail E) as [Hlen Hall].
    split.
    + simpl. rewrite Hlen. reflexivity.
    + constructor; [apply or_else_zero_not_NaN | exact Hall].
Qed.

Lemma filter_all {A : Type} (f : A -> bool) (l : list A) :
  Forall (fun a => f a = true) l -> filter f l = l.
Proof.
  induction 1 as [|a l Ha _ IH]; [reflexivity|].
  simpl. rewrite Ha, IH. reflexivity.
Qed.

(** The filter of [parseRawDataCSV] removes nothing: a field that is not
    a number has become 0 before the filter looks at it, so every data
    line gives a sample. *)
Lemma parseRawDataCSV_keeps_every_row csvText points :
  parseRawDataCSV csvText = Ok points ->
  parseRows 0 (dataLinesOf csvText) = Ok points /\
  List.length points = List.length (dataLinesOf csvText).
Proof.
  unfold parseRawDataCSV.
  destruct (parseRows 0 (dataLinesOf csvText)) as [rows|] eqn:E;
    [|discriminate].
  destruct (parseRows_shape _ _ _ E) as [Hlen Hall].
  rewrite filter_all.
  - intro H. injection H as <-. split; [reflexivity | exact Hlen].
  - apply Forall_impl with (2 := Hall). intros p Hp. rewrite Hp. reflexivity.
Qed.

(** C2, on the code: the row whose second field is not a number is kept,
    with the code 0, and the document gives three samples. *)
Theorem malformed_row_becomes_zero :
  parseRawDataCSV malformedRow =
  Ok [sample 0 "28.06.2025 07:03:29" 2535;
      sample 1 "28.06.2025 07:05:29" 0;
      sample 2 "28.06.2025 07:07:29" 2534].
Proof. reflexivity. Qed.

End RawParserClaims.

(** ** The model on the examples of the documentation *)

Section Examples.

Import DataUploader ChartPage.

Example parseInt_cuts_the_fraction : JsString.parseInt "10.5" = ofZ 10.
Proof. reflexivity. Qed.

Example parseInt_without_digit : JsString.parseInt "abc" = NaN.
Proof. reflexivity. Qed.

Example parseInt_hexadecimal : JsString.parseInt " 0x1F" = ofZ 31.
Proof. reflexivity. Qed.

Example parseFloat_fraction :
  JsString.parseFloat "2534.5e1 l" = ofZ 25345.
Proof. vm_compute. apply Fin_canon. reflexivity. Qed.

Example parseFloat_without_digit : JsString.parseFloat "." = NaN.
Proof. reflexivity. Qed.

Example toLowerCase_cyrillic :
  JsString.toLowerCase "ДАТА и Время" = "дата и время"%string.
Proof. reflexivity. Qed.

Example split_keeps_empty_fields :
  JsString.split "," "a,,b," = ["a"; ""; "b"; ""]%string.
Proof. reflexivity. Qed.

Example header_is_skipped :
  parseRawDataCSV
    (String.concat newline ["Дата,Код"; "28.06.2025 07:03:29,2535"]%string)
  = Ok [sample 0 "28.06.2025 07:03:29" 2535]%list.
Proof. reflexivity. Qed.

Example row_without_comma_throws :
  parseRawDataCSV
    (String.concat newline ["28.06.2025 07:03:29,2535"; "2534"]%string)
  = Throw "Неверный формат строки 2: 2534".
Proof. reflexivity. Qed.

Example date_is_parsed :
  parseDateTime millisOfDay "28.06.2025 07:03:29" = Ok (ofZ 25409000).
Proof. vm_compute. apply (f_equal Ok). apply Fin_canon. reflexivity. Qed.

Example label_is_not_a_date :
  parseDateTime millisOfDay "not-a-date" = Throw (malformedDate "not-a-date").
Proof. reflexivity. Qed.

Example interpolation_half_way :
  convertSensorCodeToLiters [point 0 0; point 100 10] (ofZ 50) = ofZ 5.
Proof. vm_compute. apply Fin_canon. reflexivity. Qed.

(** The divisor 10 is set before the document is loaded. *)
Example divisor_then_upload :
  let page :=
    snd (Page.run (fun _ => threeEntries) Page.initialState
           [Page.DividerChange (ofZ 10); Page.CalibrationUpload exampleXml]) in
  map y (calibrationData page) = [ofZ 0; ofZ 1; ofZ 2] /\
  convertSensorCodeToLiters (calibrationData page) (ofZ 150)
  = Fin (Q2Qc (3 # 2)).
Proof.
  intro page. split.
  - numbers_eq.
  - vm_compute. apply Fin_canon. reflexivity.
Qed.

End Examples.

(** * Further properties *)

(** ** The calibration parser and the divisor *)

Section CalibrationParserFacts.

Import DataUploader.

Variable parseFromString : string -> XMLDocument.

Lemma div_one (a : number) : (a / one)%js = a.
Proof.
  destruct a as [|s|q]; try reflexivity.
  - unfold div, one, ofZ. simpl. destruct s; reflexivity.
  - unfold div, one, ofZ. change (Q2Qc (inject_Z 1)) with 1%Qc.
    change (Qc_eqb 1 0) with false. cbv iota. f_equal.
    unfold Qcdiv. change (/ 1)%Qc with 1%Qc. apply Qcmult_1_r.
Qed.

Lemma insert_map (f : DataPoint -> DataPoint) a l :
  (forall p, x (f p) = x p) ->
  insert byX (f a) (map f l) = map f (insert byX a l).
Proof.
  intro Hx. induction l as [|b l IH]; [reflexivity|].
  simpl. unfold byX at 1 3. rewrite !Hx.
  destruct (x a - x b > zero)%js; simpl; [rewrite IH|]; reflexivity.
Qed.

(** Sorting commutes with a change of the points that keeps the codes. *)
Lemma Array_sort_map (f : DataPoint -> DataPoint) l :
  (forall p, x (f p) = x p) ->
  Array_sort byX (map f l) = map f (Array_sort byX l).
Proof.
  intro Hx. induction l as [|a l IH]; [reflexivity|].
  simpl. rewrite IH. apply insert_map, Hx.
Qed.

Lemma collect_rescaled divider (elements : list Element) :
  forall index,
    collect divider index elements =
    map (rescaled divider) (collect one index elements).
Proof.
  induction elements as [|e rest IH]; intro index; [reflexivity|].
  cbn [collect].
  destruct (truthyString (getAttribute (attributes e) "code") &&
            truthyString (textContent e)).
  - cbn [map]. rewrite IH. f_equal.
    unfold rescaled. cbn [x y name]. rewrite div_one. reflexivity.
  - apply IH.
Qed.

(** X1: the divisor only rescales.  The points parsed with a divisor are
    the points parsed with the divisor 1, in the same order and with the
    same codes and labels, each volume divided by the divisor; the date
    does not depend on the divisor. *)
Theorem parse_with_divider_rescales divider xmlText :
  fst (parseCalibrationXML parseFromString divider xmlText) =
  map (rescaled divider)
      (fst (parseCalibrationXML parseFromString one xmlText)) /\
  snd (parseCalibrationXML parseFromString divider xmlText) =
  snd (parseCalibrationXML parseFromString one xmlText).
Proof.
  unfold parseCalibrationXML. cbn [fst snd]. split; [|reflexivity].
  rewrite collect_rescaled. apply Array_sort_map. reflexivity.
Qed.

Lemma collect_origin divider (elements : list Element) :
  forall index p,
    In p (collect divider index elements) ->
    exists i e c v,
      nth_error elements i = Some e /\
      getAttribute (attributes e) "code" = Some c /\
      JsString.isEmpty c = false /\
      textContent e = Some v /\
      JsString.isEmpty v = false /\
      p = {| x := JsString.parseInt c;
             y := (JsString.parseInt v / divider)%js;
             name := String.append "Калибровка "
                       (JsString.ofNat (index + i + 1)) |}.
Proof.
  induction elements as [|e rest IH]; intros index p Hin; [destruct Hin|].
  cbn [collect] in Hin.
  assert (Hrest : In p (collect divider (S index) rest) ->
                  exists i e0 c v,
                    nth_error (e :: rest) i = Some e0 /\
                    getAttribute (attributes e0) "code" = Some c /\
                    JsString.isEmpty c = false /\
                    textContent e0 = Some v /\
                    JsString.isEmpty v = false /\
                    p = {| x := JsString.parseInt c;
                           y := (JsString.parseInt v / divider)%js;
                           name := String.append "Калибровка "
                                     (JsString.ofNat (index + i + 1)) |}).
  { intro H. destruct (IH (S index) p H) as (i & e0 & c & v & Hn & R).
    exists (S i), e0, c, v. split; [exact Hn|].
    replace (index + S i + 1)%nat with (S index + i + 1)%nat by lia. exact R. }
  destruct (getAttribute (attributes e) "code") as [c|] eqn:Ec;
    [|apply Hrest, Hin].
  destruct (textContent e) as [v|] eqn:Ev;
    [|rewrite andb_false_r in Hin; apply Hrest, Hin].
  cbn [truthyString orEmpty] in Hin.
  destruct (JsString.isEmpty c) eqn:Hc; [apply Hrest, Hin|].
  destruct (JsString.isEmpty v) eqn:Hv; [apply Hrest, Hin|].
  cbn [negb andb] in Hin. destruct Hin as [<-|Hin]; [|apply Hrest, Hin].
  exists 0%nat, e, c, v. repeat split; try assumption.
  replace (index + 0 + 1)%nat with (index + 1)%nat by lia. reflexivity.
Qed.

(** X2: the parser invents no point.  Every point it returns comes from a
    value element with a code and a body that are not empty; the label of
    the point holds the position of that element in the document, counted
    from 1. *)
Theorem parsed_point_origin divider xmlText p :
  In p (fst (parseCalibrationXML parseFromString divider xmlText)) ->
  exists i e c v,
    nth_error (valueElements (parseFromString xmlText)) i = Some e /\
    getAttribute (attributes e) "code" = Some c /\
    JsString.isEmpty c = false /\
    textContent e = Some v /\
    JsString.isEmpty v = false /\
    p = {| x := JsString.parseInt c;
           y := (JsString.parseInt v / divider)%js;
           name := String.append "Калибровка " (JsString.ofNat (i + 1)) |}.
Proof.
  unfold parseCalibrationXML. cbn [fst]. intro Hin.
  apply Array_sort_In in Hin.
  exact (collect_origin divider _ 0 p Hin).
Qed.

Lemma collect_length divider (elements : list Element) :
  forall index,
    List.length (collect divider index elements) =
    List.length (filter kept elements).
Proof.
  induction elements as [|e rest IH]; intro index; [reflexivity|].
  cbn [collect filter]. unfold kept at 1.
  destruct (truthyString (getAttribute (attributes e) "code") &&
            truthyString (textContent e)); simpl; rewrite IH; reflexivity.
Qed.

(** X3: the number of points is the number of value elements that have a
    code and a body, whatever these hold: an entry whose code or body is
    not a number still gives a point. *)
Theorem parsed_point_count divider xmlText :
  List.length (fst (parseCalibrationXML parseFromString divider xmlText)) =
  List.length (filter kept (valueElements (parseFromString xmlText))).
Proof.
  unfold parseCalibrationXML. cbn [fst].
  rewrite (Permutation_length (Array_sort_perm byX _)).
  apply collect_length.
Qed.

Lemma to_uint_not_Nil (n : nat) : Nat.to_uint n <> Decimal.Nil.
Proof.
  rewrite <- (DecimalNat.Unsigned.of_to n) at 1.
  rewrite DecimalNat.Unsigned.to_of. unfold Decimal.unorm.
  destruct (Decimal.nzhead (Nat.to_uint n)); discriminate.
Qed.

Lemma ofNat_inj (n m : nat) : JsString.ofNat n = JsString.ofNat m -> n = m.
Proof.
  unfold JsString.ofNat. intro H.
  apply DecimalNat.Unsigned.to_uint_inj.
  pose proof (NilZero.usu _ (to_uint_not_Nil n)) as Hn.
  pose proof (NilZero.usu _ (to_uint_not_Nil m)) as Hm.
  rewrite H in Hn. rewrite Hn in Hm. injection Hm as Hm. exact Hm.
Qed.

Lemma append_inj (p a b : string) : String.append p a = String.append p b -> a = b.
Proof.
  induction p as [|c p IH]; simpl; intro H; [exact H|].
  injection H as H. apply IH, H.
Qed.

Lemma collect_labels divider (elements : list Element) :
  forall index,
    NoDup (map name (collect divider index elements)) /\
    forall p, In p (collect divider index elements) ->
              exists j, (index < j)%nat /\
                        name p = String.append "Калибровка " (JsString.ofNat j).
Proof.
  induction elements as [|e rest IH]; intro index.
  - split; [constructor | intros p []].
  - destruct (IH (S index)) as [Hnd Hlab]. cbn [collect].
    destruct (truthyString (getAttribute (attributes e) "code") &&
              truthyString (textContent e)).
    + split.
      * cbn [map name]. constructor; [|exact Hnd].
        intro Hin. apply in_map_iff in Hin. destruct Hin as (p & Hp & Hin).
        destruct (Hlab p Hin) as (j & Hj & Hname).
        rewrite Hname in Hp. apply append_inj, ofNat_inj in Hp. lia.
      * intros p [<-|Hin].
        -- exists (index + 1)%nat. split; [lia | reflexivity].
        -- destruct (Hlab p Hin) as (j & Hj & Hname).
           exists j. split; [lia | exact Hname].
    + split; [exact Hnd|].
      intros p Hin. destruct (Hlab p Hin) as (j & Hj & Hname).
      exists j. split; [lia | exact Hname].
Qed.

(** X4: no two points of a parsed curve carry the same label, also when
    they carry the same code and volume. *)
Theorem parsed_labels_distinct divider xmlText :
  NoDup (map name (fst (parseCalibrationXML parseFromString divider xmlText))).
Proof.
  unfold parseCalibrationXML. cbn [fst].
  apply (Permutation_NoDup
           (l := map name (collect divider 0
                             (valueElements (parseFromString xmlText))))).
  - apply Permutation_map, Permutation_sym, Array_sort_perm.
  - apply collect_labels.
Qed.

(** X5: for a document whose codes are integers, the sort that
    [convertSensorCodeToLiters] applies to the parsed curve changes
    nothing: the conversion works on the curve as the parser returned it. *)
Theorem parsed_curve_already_sorted divider xmlText :
  integerCodes (parseFromString xmlText) ->
  Array_sort byX (fst (parseCalibrationXML parseFromString divider xmlText)) =
  fst (parseCalibrationXML parseFromString divider xmlText).
Proof.
  intro Hvalid. apply nonDecreasing_sorted_id.
  unfold parseCalibrationXML. cbn [fst].
  apply Array_sort_nonDecreasing, collect_finite, Hvalid.
Qed.

End CalibrationParserFacts.

Lemma parsed_point_origin_witness :
  exists i e c v,
    nth_error (DataUploader.valueElements duplicateCodes) i = Some e /\
    DataUploader.getAttribute (DataUploader.attributes e) "code" = Some c /\
    JsString.isEmpty c = false /\
    DataUploader.textContent e = Some v /\
    JsString.isEmpty v = false /\
    {| x := ofZ 100; y := (ofZ 7 / one)%js; name := "Калибровка 4" |} =
    {| x := JsString.parseInt c;
       y := (JsString.parseInt v / one)%js;
       name := String.append "Калибровка " (JsString.ofNat (i + 1)) |}.
Proof.
  apply (parsed_point_origin (fun _ => duplicateCodes) one exampleXml).
  vm_compute. tauto.
Defined.

Lemma parsed_curve_already_sorted_witness :
  Array_sort byX
    (fst (DataUploader.parseCalibrationXML (fun _ => duplicateCodes) one exampleXml)) =
  fst (DataUploader.parseCalibrationXML (fun _ => duplicateCodes) one exampleXml).
Proof.
  apply (parsed_curve_already_sorted (fun _ => duplicateCodes) one exampleXml).
  intros e c Hin Hc _. simpl in Hin.
  destruct Hin as [<-|[<-|[<-|[<-|[]]]]]; injection Hc as <-; reflexivity.
Defined.

(** ** The parser of raw data *)

Section RawParserFacts.

Import DataUploader.

Lemma split_not_nil (sep : ascii) (s : string) : JsString.split sep s <> [].
Proof.
  destruct s as [|c s]; simpl; [discriminate|].
  destruct (Ascii.eqb c sep); [discriminate|].
  destruct (JsString.split sep s); discriminate.
Qed.

Lemma prefix_empty (s : string) : String.prefix EmptyString s = true.
Proof. destruct s; reflexivity. Qed.

(** A line splits into one part exactly when it has no separator. *)
Lemma split_single (sep : ascii) (s : string) :
  JsString.includes s (String sep EmptyString) = false <->
  (List.length (JsString.split sep s) < 2)%nat.
Proof.
  induction s as [|c s IH].
  - simpl. split; [lia | reflexivity].
  - cbn [JsString.includes JsString.split String.prefix].
    destruct (ascii_dec sep c) as [->|Hne].
    + rewrite prefix_empty, Ascii.eqb_refl. simpl.
      pose proof (split_not_nil c s) as Hn.
      destruct (JsString.split c s); [congruence|].
      simpl. split; [discriminate | lia].
    + assert (E : Ascii.eqb c sep = false).
      { apply Ascii.eqb_neq. congruence. }
      rewrite E. cbn [orb].
      pose proof (split_not_nil sep s) as Hn.
      destruct (JsString.split sep s) as [|h t]; [congruence|].
      exact IH.
Qed.

Lemma fields_short (line : string) :
  hasComma line = false <->
  (forall dateTime field1 rest, fields line <> dateTime :: field1 :: rest).
Proof.
  unfold hasComma, fields. rewrite split_single.
  destruct (JsString.split "," line) as [|a [|b t]]; simpl; split; intro H;
    try lia; try discriminate.
  - exfalso. eapply H. reflexivity.
Qed.

Lemma parseRows_ok (dataLines : list string) :
  forall index points,
    parseRows index dataLines = Ok points ->
    forall i line,
      nth_error dataLines i = Some line ->
      exists dateTime field1 rest,
        fields line = dateTime :: field1 :: rest /\
        nth_error points i =
        Some {| x := JsNumber.ofNat (index + i);
                y := or_else (JsString.parseFloat field1) zero;
                name := dateTime |}.
Proof.
  induction dataLines as [|l0 ls IH]; intros index points H i line Hn.
  - destruct i; discriminate Hn.
  - cbn [parseRows] in H.
    destruct (fields l0) as [|dateTime [|field1 others]] eqn:Ef;
      try discriminate H.
    destruct (parseRows (S index) ls) as [tail|] eqn:E; [|discriminate H].
    injection H as <-. destruct i as [|i].
    + injection Hn as <-. exists dateTime, field1, others.
      split; [exact Ef|]. rewrite Nat.add_0_r. reflexivity.
    + destruct (IH (S index) tail E i line Hn) as (d & f & r & Hf & Hp).
      exists d, f, r. split; [exact Hf|].
      replace (index + S i)%nat with (S index + i)%nat by lia. exact Hp.
Qed.

(** X6: when the parser of raw data returns, it returns one sample for
    each data line, in the order of the lines: the sample of the line at
    position [i] has the index [i], the first field as its label, and as
    its code the number read from the second field, or 0 when that is no
    number or is 0.  No code is [NaN]. *)
Theorem raw_samples_follow_lines csvText points :
  parseRawDataCSV csvText = Ok points ->
  List.length points = List.length (dataLinesOf csvText) /\
  Forall (fun point => isNaN (y point) = false) points /\
  forall i line,
    nth_error (dataLinesOf csvText) i = Some line ->
    exists dateTime field1 rest,
      fields line = dateTime :: field1 :: rest /\
      nth_error points i =
      Some {| x := JsNumber.ofNat i;
              y := or_else (JsString.parseFloat field1) zero;
              name := dateTime |}.
Proof.
  intro H. destruct (parseRawDataCSV_keeps_every_row _ _ H) as [Hrows Hlen].
  split; [exact Hlen|]. split.
  - apply (parseRows_shape _ _ _ Hrows).
  - intros i line Hn. exact (parseRows_ok _ 0 points Hrows i line Hn).
Qed.

Lemma parseRows_throw (dataLines : list string) :
  forall index message,
    parseRows index dataLines = Throw message <->
    exists i line,
      nth_error dataLines i = Some line /\
      hasComma line = false /\
      (forall j l, (j < i)%nat -> nth_error dataLines j = Some l ->
                   hasComma l = true) /\
      message = rowError (index + i) line.
Proof.
  induction dataLines as [|l0 ls IH]; intros index message.
  - simpl. split; [discriminate|].
    intros (i & line & Hn & _). destruct i; discriminate Hn.
  - cbn [parseRows].
    destruct (hasComma l0) eqn:Hc.
    + destruct (fields l0) as [|dateTime [|field1 others]] eqn:Ef.
      * assert (F : hasComma l0 = false).
        { apply fields_short. rewrite Ef. discriminate. }
        congruence.
      * assert (F : hasComma l0 = false).
        { apply fields_short. rewrite Ef. discriminate. }
        congruence.
      * specialize (IH (S index) message).
        destruct (parseRows (S index) ls) as [tail|m] eqn:E.
        -- split; [discriminate|].
           intros (i & line & Hn & Hl & Hbefore & Hm).
           destruct i as [|i]; [simpl in Hn; congruence|].
           exfalso.
           assert (X : Ok tail = Throw message).
           { apply IH. exists i, line. repeat split; try assumption.
             - intros j l Hj Hnj. apply (Hbefore (S j) l); [lia | exact Hnj].
             - rewrite Hm. replace (index + S i)%nat with (S index + i)%nat by lia.
               reflexivity. }
           discriminate X.
        -- split.
           ++ intro H. apply IH in H.
              destruct H as (i & line & Hn & Hl & Hbefore & Hm).
              exists (S i), line. repeat split; try assumption.
              ** intros j l Hj Hnj. destruct j as [|j].
                 --- simpl in Hnj. congruence.
                 --- apply (Hbefore j l); [lia | exact Hnj].
              ** rewrite Hm.
                 replace (index + S i)%nat with (S index + i)%nat by lia.
                 reflexivity.
           ++ intros (i & line & Hn & Hl & Hbefore & Hm).
              destruct i as [|i]; [simpl in Hn; congruence|].
              apply IH. exists i, line. repeat split; try assumption.
              ** intros j l Hj Hnj. apply (Hbefore (S j) l); [lia | exact Hnj].
              ** rewrite Hm.
                 replace (index + S i)%nat with (S index + i)%nat by lia.
                 reflexivity.
    + assert (Hs : forall d f r, fields l0 <> d :: f :: r)
        by (apply fields_short, Hc).
      destruct (fields l0) as [|dateTime [|field1 others]] eqn:Ef;
        try (exfalso; eapply Hs; reflexivity).
      * split.
        -- intro H. injection H as <-. exists 0%nat, l0.
           repeat split; try assumption; try (intros; lia).
           rewrite Nat.add_0_r. reflexivity.
        -- intros (i & line & Hn & Hl & Hbefore & Hm).
           destruct i as [|i].
           ++ injection Hn as <-. rewrite Hm, Nat.add_0_r. reflexivity.
           ++ specialize (Hbefore 0%nat l0 ltac:(lia) eq_refl). congruence.
      * split.
        -- intro H. injection H as <-. exists 0%nat, l0.
           repeat split; try assumption; try (intros; lia).
           rewrite Nat.add_0_r. reflexivity.
        -- intros (i & line & Hn & Hl & Hbefore & Hm).
           destruct i as [|i].
           ++ injection Hn as <-. rewrite Hm, Nat.add_0_r. reflexivity.
           ++ specialize (Hbefore 0%nat l0 ltac:(lia) eq_refl). congruence.
Qed.

(** X7: the parser of raw data throws exactly when a data line has no
    comma, and the message names the first such line: its position among
    the data lines, counted from 1, and its text. *)
Theorem raw_parser_error_names_first_bad_line csvText message :
  parseRawDataCSV csvText = Throw message <->
  exists i line,
    nth_error (dataLinesOf csvText) i = Some line /\
    hasComma line = false /\
    (forall j l, (j < i)%nat -> nth_error (dataLinesOf csvText) j = Some l ->
                 hasComma l = true) /\
    message = rowError i line.
Proof.
  rewrite <- (parseRows_throw (dataLinesOf csvText) 0 message).
  unfold parseRawDataCSV.
  destruct (parseRows 0 (dataLinesOf csvText)); split; intro H;
    try discriminate H; exact H.
Qed.

(** X8: the parser of raw data returns no sample exactly when the text,
    once trimmed, is one line and this line is a header. *)
Theorem raw_parser_empty_result csvText :
  parseRawDataCSV csvText = Ok [] <->
  exists header,
    JsString.split (ascii_of_nat 10) (JsString.trim csvText) = [header]%list /\
    hasHeader header = true.
Proof.
  split.
  - intro H. apply parseRawDataCSV_keeps_every_row in H.
    destruct H as [_ Hlen]. unfold dataLinesOf in Hlen.
    pose proof (split_not_nil (ascii_of_nat 10) (JsString.trim csvText)) as Hn.
    destruct (JsString.split (ascii_of_nat 10) (JsString.trim csvText))
      as [|h t]; [congruence|].
    cbn [hd tl] in Hlen. destruct (hasHeader h) eqn:Hh.
    + destruct t; [|discriminate Hlen]. exists h. split; reflexivity || exact Hh.
    + discriminate Hlen.
  - intros (h & Hs & Hh). unfold parseRawDataCSV, dataLinesOf.
    rewrite Hs. cbn [hd tl]. rewrite Hh. reflexivity.
Qed.

(** X9: a text that holds white space only is not an empty series but an
    error on row 1. *)
Theorem raw_parser_blank_text csvText :
  JsString.trim csvText = EmptyString ->
  parseRawDataCSV csvText = Throw (rowError 0 EmptyString).
Proof.
  intro H. unfold parseRawDataCSV, dataLinesOf. rewrite H. reflexivity.
Qed.

End RawParserFacts.

Lemma raw_samples_follow_lines_witness :
  List.length
    [sample 0 "28.06.2025 07:03:29" 2535; sample 1 "28.06.2025 07:05:29" 0;
     sample 2 "28.06.2025 07:07:29" 2534] =
  List.length (DataUploader.dataLinesOf malformedRow) /\
  Forall (fun point => isNaN (y point) = false)
    [sample 0 "28.06.2025 07:03:29" 2535; sample 1 "28.06.2025 07:05:29" 0;
     sample 2 "28.06.2025 07:07:29" 2534] /\
  forall i line,
    nth_error (DataUploader.dataLinesOf malformedRow) i = Some line ->
    exists dateTime field1 rest,
      DataUploader.fields line = dateTime :: field1 :: rest /\
      nth_error
        [sample 0 "28.06.2025 07:03:29" 2535; sample 1 "28.06.2025 07:05:29" 0;
         sample 2 "28.06.2025 07:07:29" 2534] i =
      Some {| x := JsNumber.ofNat i;
              y := or_else (JsString.parseFloat field1) zero;
              name := dateTime |}.
Proof.
  apply (raw_samples_follow_lines malformedRow). reflexivity.
Defined.

Lemma raw_parser_blank_text_witness :
  DataUploader.parseRawDataCSV (String.append "  " newline) =
  Throw "Неверный формат строки 1: ".
Proof.
  apply (raw_parser_blank_text (String.append "  " newline)). reflexivity.
Defined.

(** ** The conversion on every code *)

Section ConversionFacts.

Import ChartPage.

Lemma le_NaN_r (a : number) : (a <= NaN)%js = false.
Proof. destruct a; reflexivity. Qed.

Lemma findBracket_NaN (l : list DataPoint) : findBracket NaN l = None.
Proof.
  induction l as [|a l IH]; [reflexivity|].
  destruct l as [|b l]; [reflexivity|].
  cbn [findBracket]. unfold ge at 1. rewrite le_NaN_r. exact IH.
Qed.

Lemma linear_NaN lo hi : linear lo hi NaN = NaN.
Proof.
  unfold linear. unfold sub at 1. cbv iota. unfold div. cbv iota.
  unfold mul. cbv iota. unfold add. destruct (y lo); reflexivity.
Qed.

(** X10: a code that is [NaN] converts to [NaN], on every curve. *)
Theorem conversion_of_NaN cal : convertSensorCodeToLiters cal NaN = NaN.
Proof.
  destruct cal as [|p0 rest]; [reflexivity|].
  unfold convertSensorCodeToLiters.
  unfold le at 1. cbv iota. unfold ge at 1. rewrite le_NaN_r.
  rewrite findBracket_NaN. apply linear_NaN.
Qed.

(** X11: on a sorted curve with finite codes, the code minus infinity
    converts to the first volume and the code plus infinity to the last
    one. *)
Theorem conversion_of_infinite_codes cal firstPoint :
  nonDecreasing cal -> Forall finiteCode cal ->
  hd_error cal = Some firstPoint ->
  convertSensorCodeToLiters cal (Inf true) = y firstPoint /\
  convertSensorCodeToLiters cal (Inf false) = y (last cal firstPoint).
Proof.
  intros Hs Hfin Hhd. destruct cal as [|p0 rest]; [discriminate Hhd|].
  injection Hhd as ->. unfold convertSensorCodeToLiters.
  rewrite (nonDecreasing_sorted_id _ Hs). cbn [hd].
  assert (Ffirst : finiteCode firstPoint) by (inversion Hfin; assumption).
  assert (Flast : finiteCode (last (firstPoint :: rest) firstPoint)).
  { rewrite Forall_forall in Hfin. apply Hfin. rewrite last_cons. apply last_In. }
  apply isFinite_Fin in Ffirst, Flast.
  destruct Ffirst as [a Ea], Flast as [b Eb].
  rewrite Ea, Eb. split; reflexivity.
Qed.


Lemma insert_strict a l :
  finiteCode a -> Forall finiteCode l ->
  ~ In (x a) (map x l) ->
  StronglySorted ltCode l -> StronglySorted ltCode (insert byX a l).
Proof.
  intros Fa Fl Hnot Hs. induction Hs as [|b l Hs IH Hall]; simpl.
  - repeat constructor.
  - inversion Fl as [|? ? Fb Fl']; subst.
    apply isFinite_Fin in Fa as Ea. destruct Ea as [qa Ea].
    apply isFinite_Fin in Fb as Eb. destruct Eb as [qb Eb].
    unfold byX at 1. rewrite Ea, Eb, sub_positive_Fin.
    destruct (Qc_ltb qb qa) eqn:E.
    + constructor.
      * apply IH; [exact Fl'|]. intro H. apply Hnot. right. exact H.
      * apply insert_Forall; [|exact Hall].
        unfold ltCode. rewrite Ea, Eb. exact E.
    + assert (Hab : ltCode a b).
      { unfold ltCode. rewrite Ea, Eb. unfold lt. apply Qc_ltb_spec.
        destruct (Qc_dec qa qb) as [[H|H]|H].
        - exact H.
        - apply Qc_ltb_spec in H. congruence.
        - exfalso. apply Hnot. left. rewrite Ea, Eb, H. reflexivity. }
      constructor.
      * constructor; assumption.
      * constructor; [exact Hab|].
        apply Forall_impl with (2 := Hall). intros p Hp.
        exact (lt_trans _ _ _ Hab Hp).
Qed.

Lemma Array_sort_strict l :
  Forall finiteCode l -> NoDup (map x l) ->
  StronglySorted ltCode (Array_sort byX l).
Proof.
  induction l as [|a l IH]; intros Hfin Hnd; simpl; [constructor|].
  inversion Hfin as [|? ? Fa Fl]; subst.
  inversion Hnd as [|? ? Hnot Hnd']; subst.
  apply insert_strict.
  - exact Fa.
  - apply Array_sort_Forall, Fl.
  - intro H. apply Hnot.
    apply (Permutation_in _ (Permutation_map x (Array_sort_perm byX l))), H.
  - apply IH; assumption.
Qed.

Lemma strict_sorted_unique l1 :
  forall l2,
    StronglySorted ltCode l1 -> StronglySorted ltCode l2 ->
    Permutation l1 l2 -> l1 = l2.
Proof.
  induction l1 as [|a1 l1 IH]; intros l2 H1 H2 Hp.
  - apply Permutation_nil in Hp. congruence.
  - destruct l2 as [|a2 l2].
    { apply Permutation_sym, Permutation_nil in Hp. discriminate Hp. }
    inversion H1 as [|? ? S1 A1]; subst. inversion H2 as [|? ? S2 A2]; subst.
    assert (E : a1 = a2).
    { assert (I1 : In a1 (a2 :: l2)) by (apply (Permutation_in _ Hp); left; reflexivity).
      assert (I2 : In a2 (a1 :: l1))
        by (apply (Permutation_in _ (Permutation_sym Hp)); left; reflexivity).
      destruct I1 as [->|I1]; [reflexivity|].
      destruct I2 as [->|I2]; [reflexivity|].
      rewrite Forall_forall in A1, A2.
      pose proof (A1 a2 I2) as L1. pose proof (A2 a1 I1) as L2.
      apply lt_asym in L1. unfold ltCode in L2. congruence. }
    subst a2. f_equal. apply IH; try assumption.
    apply Permutation_cons_inv with (a := a1). exact Hp.
Qed.

(** X14: when the codes are finite and distinct, the order in which the
    calibration points are held does not matter for the conversion. *)
Theorem conversion_ignores_order cal cal' c :
  Permutation cal cal' -> Forall finiteCode cal -> NoDup (map x cal) ->
  convertSensorCodeToLiters cal c = convertSensorCodeToLiters cal' c.
Proof.
  intros Hp Hfin Hnd.
  assert (Hs : Array_sort byX cal = Array_sort byX cal').
  { apply strict_sorted_unique.
    - apply Array_sort_strict; assumption.
    - apply Array_sort_strict.
      + apply (Permutation_Forall Hp), Hfin.
      + apply (Permutation_NoDup (Permutation_map x Hp)), Hnd.
    - apply Permutation_trans with cal; [apply Array_sort_perm|].
      apply Permutation_trans with cal'; [exact Hp|].
      apply Permutation_sym, Array_sort_perm. }
  destruct cal as [|p0 rest], cal' as [|p0' rest']; try reflexivity.
  - apply Permutation_nil in Hp. discriminate Hp.
  - apply Permutation_sym, Permutation_nil in Hp. discriminate Hp.
  - unfold convertSensorCodeToLiters. rewrite <- Hs.
    pose proof (Array_sort_perm byX (p0 :: rest)) as Hperm.
    destruct (Array_sort byX (p0 :: rest)) as [|s0 srest].
    { apply Permutation_nil in Hperm. discriminate Hperm. }
    cbn [hd]. rewrite !last_cons. reflexivity.
Qed.

End ConversionFacts.

Lemma conversion_of_infinite_codes_witness :
  ChartPage.convertSensorCodeToLiters
    [point 0 0; point 100 10; point 200 20] (Inf true) = ofZ 0 /\
  ChartPage.convertSensorCodeToLiters
    [point 0 0; point 100 10; point 200 20] (Inf false) = ofZ 20.
Proof.
  apply (conversion_of_infinite_codes
           [point 0 0; point 100 10; point 200 20] (point 0 0)).
  - repeat constructor.
  - repeat constructor.
  - reflexivity.
Defined.


Lemma conversion_ignores_order_witness :
  ChartPage.convertSensorCodeToLiters
    [point 0 0; point 100 10; point 200 20] (ofZ 150) =
  ChartPage.convertSensorCodeToLiters
    [point 200 20; point 0 0; point 100 10] (ofZ 150).
Proof.
  apply conversion_ignores_order.
  - apply Permutation_sym.
    apply (Permutation_cons_app [point 0 0; point 100 10] [] (point 200 20)).
    apply Permutation_refl.
  - repeat constructor.
  - repeat constructor; simpl; intuition discriminate.
Defined.

(** ** The nearest calibration point and the deviations *)

Section StatisticsFacts.

Import ChartPage.

Lemma distance_Fin (q a : Qc) p :
  x p = Fin a -> distance (Fin q) p = Fin (Qcabs (a - q)).
Proof. intro E. unfold distance. rewrite E. reflexivity. Qed.

Lemma distance_finite c p :
  finiteCode p -> isFinite c = true -> isFinite (distance c p) = true.
Proof.
  intros Fp Fc. apply isFinite_Fin in Fp, Fc.
  destruct Fp as [a Ea], Fc as [q ->]. rewrite (distance_Fin q a p Ea). reflexivity.
Qed.

Lemma lt_nlt_trans (a b c : number) :
  isFinite b = true -> isFinite c = true ->
  (a < b)%js = true -> (c < b)%js = false -> (a < c)%js = true.
Proof.
  intros Fb Fc. apply isFinite_Fin in Fb, Fc.
  destruct Fb as [qb ->], Fc as [qc ->].
  destruct a as [|s|qa]; unfold lt; try discriminate; try tauto.
  intros H1 H2. apply Qc_ltb_spec. apply Qc_ltb_spec in H1.
  apply Qclt_le_trans with qb; [exact H1|].
  apply Qcnot_lt_le. intro H. apply Qc_ltb_spec in H. congruence.
Qed.

(** The scan keeps a point that is strictly nearer than all points before
    it and that no later point beats. *)
Lemma closest_fold (c : number) (rest : list DataPoint) :
  forall pre best mid,
    isFinite c = true ->
    Forall finiteCode (pre ++ best :: mid ++ rest) ->
    (forall q, In q pre -> (distance c best < distance c q)%js = true) ->
    (forall q, In q mid -> (distance c q < distance c best)%js = false) ->
    exists before found after,
      pre ++ best :: mid ++ rest = before ++ found :: after /\
      fold_left (closer c) rest best = found /\
      (forall q, In q before -> (distance c found < distance c q)%js = true) /\
      (forall q, In q after -> (distance c q < distance c found)%js = false).
Proof.
  induction rest as [|r rest IH]; intros pre best mid Fc Hfin Hpre Hmid.
  - exists pre, best, mid. rewrite app_nil_r. repeat split; assumption.
  - cbn [fold_left]. unfold closer at 2.
    change (abs (x r - c))%js with (distance c r).
    change (abs (x best - c))%js with (distance c best).
    destruct (distance c r < distance c best)%js eqn:E.
    + destruct (IH (pre ++ best :: mid) r [] Fc) as (b & f & a & Heq & R).
      * cbn [app]. rewrite <- app_assoc. exact Hfin.
      * intros q Hq. apply in_app_or in Hq. destruct Hq as [Hq|[<-|Hq]].
        -- exact (lt_trans _ _ _ E (Hpre q Hq)).
        -- exact E.
        -- rewrite Forall_forall in Hfin.
           assert (Fq : finiteCode q).
           { apply Hfin. apply in_or_app. right. right.
             apply in_or_app. left. exact Hq. }
           assert (Fb : finiteCode best).
           { apply Hfin. apply in_or_app. right. left. reflexivity. }
           apply (lt_nlt_trans _ (distance c best));
             [apply distance_finite | apply distance_finite | |]; auto.
      * intros q [].
      * exists b, f, a. split; [|exact R].
        rewrite <- Heq. cbn [app]. rewrite <- app_assoc. reflexivity.
    + destruct (IH pre best (mid ++ [r]) Fc) as (b & f & a & Heq & R).
      * rewrite <- app_assoc. exact Hfin.
      * exact Hpre.
      * intros q Hq. apply in_app_or in Hq. destruct Hq as [Hq|[<-|[]]].
        -- apply Hmid, Hq.
        -- exact E.
      * exists b, f, a. split; [|exact R].
        rewrite <- Heq. rewrite <- app_assoc. reflexivity.
Qed.

(** X15: the nearest calibration point.  On a non-empty curve with finite
    codes and for a finite code, [findClosestCalibration] returns a point
    of the curve; this point is strictly nearer to the code than every
    point before it, and no point after it is nearer. *)
Theorem nearest_calibration_point cal c :
  cal <> [] -> Forall finiteCode cal -> isFinite c = true ->
  exists before found after,
    cal = before ++ found :: after /\
    findClosestCalibration cal c = (x found, y found) /\
    (forall q, In q before -> (distance c found < distance c q)%js = true) /\
    (forall q, In q after -> (distance c q < distance c found)%js = false).
Proof.
  intros Hne Hfin Fc. destruct cal as [|first rest]; [congruence|].
  destruct (closest_fold c rest [] first [] Fc Hfin)
    as (before & found & after & Heq & Hfold & Hb & Ha).
  - intros q [].
  - intros q [].
  - exists before, found, after. split; [exact Heq|].
    split; [|split; assumption].
    unfold findClosestCalibration.
    change (fold_left _ rest first) with (fold_left (closer c) rest first).
    rewrite Hfold. reflexivity.
Qed.

Lemma strict_codes_unique l p q :
  StronglySorted ltCode l -> In p l -> In q l -> x p = x q -> p = q.
Proof.
  induction 1 as [|a l Hs IH Hall]; intros Hp Hq E; [destruct Hp|].
  rewrite Forall_forall in Hall.
  destruct Hp as [<-|Hp], Hq as [<-|Hq].
  - reflexivity.
  - pose proof (Hall q Hq) as L. unfold ltCode in L. rewrite E in L.
    pose proof (lt_asym _ _ L). congruence.
  - pose proof (Hall p Hp) as L. unfold ltCode in L. rewrite <- E in L.
    pose proof (lt_asym _ _ L). congruence.
  - apply IH; assumption.
Qed.

Lemma Qcabs_zero_eq (a b : Qc) : Qc_ltb 0 (Qcabs (a - b)) = false -> a = b.
Proof.
  intro H.
  assert (Z : Qcabs (a - b) = 0%Qc).
  { apply Qcle_antisym; [|apply Qcabs_nonneg].
    apply Qcnot_lt_le. intro L. apply Qc_ltb_spec in L. congruence. }
  apply Qcabs_null in Z.
  replace a with (a - b + b)%Qc by ring. rewrite Z. ring.
Qed.

(** X16: on a curve whose codes are finite and increase strictly, a
    sample whose code is the code of a calibration point is paired with
    that very point: the statistics compare it with its own volume. *)
Theorem sample_at_calibration_code cal p item :
  strictlyIncreasing cal -> Forall finiteCode cal -> In p cal ->
  y item = x p ->
  findClosestCalibration cal (y item) = (x p, y p) /\
  calibration (withCalibration cal item) = y p.
Proof.
  intros Hs Hfin Hin Ey.
  pose proof (strictlyIncreasing_strong _ Hs) as Hss.
  assert (Fx : finiteCode p) by (rewrite Forall_forall in Hfin; apply Hfin, Hin).
  unfold finiteCode in Fx.
  apply isFinite_Fin in Fx as Ex. destruct Ex as [a Ea].
  destruct cal as [|first rest]; [destruct Hin|].
  destruct (closest_fold (x p) rest [] first [] Fx Hfin)
    as (before & found & after & Heq & Hfold & Hb & Ha);
    try (intros q []).
  cbn [app] in Heq.
  assert (Ifound : In found (first :: rest)).
  { rewrite Heq. apply in_or_app. right. left. reflexivity. }
  assert (Ffound : finiteCode found)
    by (rewrite Forall_forall in Hfin; apply Hfin, Ifound).
  apply isFinite_Fin in Ffound. destruct Ffound as [b Eb].
  assert (Dp : distance (x p) p = Fin 0%Qc).
  { rewrite Ea, (distance_Fin a a p Ea). apply Fin_canon.
    replace (a - a)%Qc with 0%Qc by ring. reflexivity. }
  assert (Efound : found = p).
  { rewrite Heq in Hin. apply in_app_or in Hin. destruct Hin as [Hin|[E|Hin]].
    - specialize (Hb p Hin). rewrite Dp in Hb.
      rewrite Ea, (distance_Fin a b found Eb) in Hb. unfold lt in Hb.
      apply Qc_ltb_spec in Hb. pose proof (Qcabs_nonneg (b - a)) as N.
      exfalso. exact (Qclt_not_le _ _ Hb N).
    - exact E.
    - specialize (Ha p Hin). rewrite Dp in Ha.
      rewrite Ea, (distance_Fin a b found Eb) in Ha. unfold lt in Ha.
      apply Qcabs_zero_eq in Ha.
      apply (strict_codes_unique _ found p Hss Ifound).
      + rewrite Heq. apply in_or_app. right. right. exact Hin.
      + rewrite Ea, Eb, Ha. reflexivity. }
  assert (Hc : findClosestCalibration (first :: rest) (y item) = (x p, y p)).
  { unfold findClosestCalibration. rewrite Ey.
    change (fold_left _ rest first) with (fold_left (closer (x p)) rest first).
    rewrite Hfold, Efound. reflexivity. }
  split; [exact Hc|].
  unfold withCalibration. cbn [calibration]. rewrite Hc. reflexivity.
Qed.

End StatisticsFacts.

Lemma nearest_calibration_point_witness :
  exists before found after,
    [point 0 0; point 100 10; point 200 20] = before ++ found :: after /\
    ChartPage.findClosestCalibration
      [point 0 0; point 100 10; point 200 20] (ofZ 150) = (x found, y found) /\
    (forall q, In q before ->
               (distance (ofZ 150) found < distance (ofZ 150) q)%js = true) /\
    (forall q, In q after ->
               (distance (ofZ 150) q < distance (ofZ 150) found)%js = false).
Proof.
  apply nearest_calibration_point.
  - discriminate.
  - repeat constructor.
  - reflexivity.
Defined.

Lemma sample_at_calibration_code_witness :
  ChartPage.findClosestCalibration [point 0 0; point 100 10; point 200 20]
    (y (sample 0 "28.06.2025 07:03:29" 100)) =
  (x (point 100 10), y (point 100 10)) /\
  ChartPage.calibration
    (ChartPage.withCalibration [point 0 0; point 100 10; point 200 20]
       (sample 0 "28.06.2025 07:03:29" 100)) = y (point 100 10).
Proof.
  apply (sample_at_calibration_code
           [point 0 0; point 100 10; point 200 20] (point 100 10)).
  - repeat constructor.
  - repeat constructor.
  - simpl. tauto.
  - reflexivity.
Defined.

(** ** The deviations and the samples of the chart *)

Section DeviationFacts.

Import ChartPage.

Variable Date_getTime :
  number -> number -> number -> number -> number -> number -> number.

Lemma lt_false_le (a b : number) :
  isNaN a = false -> isNaN b = false ->
  (a < b)%js = false -> (b <= a)%js = true.
Proof.
  destruct a as [|s|p], b as [|t|q]; unfold lt, le; cbn [isNaN];
    try discriminate; intros _ _.
  - destruct s, t; simpl; intro H; try discriminate H; reflexivity.
  - intros ->. reflexivity.
  - intro H. apply negb_false_iff in H. exact H.
  - intro H. apply Qc_leb_spec, Qcnot_lt_le. intro L.
    apply Qc_ltb_spec in L. congruence.
Qed.

Lemma le_trans (a b c : number) :
  (a <= b)%js = true -> (b <= c)%js = true -> (a <= c)%js = true.
Proof.
  destruct a as [|s|p], b as [|t|q], c as [|u|r]; unfold le;
    try discriminate; try tauto;
    try (destruct s; try destruct t; try destruct u; simpl;
         intros; try discriminate; reflexivity);
    try (destruct t; try destruct u; simpl; intros; try discriminate; reflexivity).
  intros H1 H2. apply Qc_leb_spec. apply Qc_leb_spec in H1, H2.
  exact (Qcle_trans _ _ _ H1 H2).
Qed.

(** [Math.max]: the scan starts from minus infinity, which the first
    argument replaces. *)
Lemma max2_from_bottom (a : number) : max2 (Inf true) a = a.
Proof.
  destruct a as [|s|q]; [reflexivity | destruct s; reflexivity | reflexivity].
Qed.

Lemma max2_NaN_r (a : number) : max2 a NaN = NaN.
Proof. destruct a; reflexivity. Qed.

Lemma fold_max_NaN (l : list number) : fold_left max2 l NaN = NaN.
Proof. induction l as [|a l IH]; [reflexivity | exact IH]. Qed.

Lemma fold_max_Exists_NaN (l : list number) :
  forall m,
    Exists (fun d => isNaN d = true) l -> fold_left max2 l m = NaN.
Proof.
  induction l as [|a l IH]; intros m H;
    inversion H as [? ? Ha|? ? Hl]; subst; cbn [fold_left].
  - destruct a; try discriminate Ha. rewrite max2_NaN_r. apply fold_max_NaN.
  - apply IH, Hl.
Qed.

(** Without [NaN] the scan ends on one of the numbers, and no number is
    above it. *)
Lemma fold_max_bounds (l : list number) :
  forall m,
    isNaN m = false -> Forall (fun d => isNaN d = false) l ->
    In (fold_left max2 l m) (m :: l) /\
    (m <= fold_left max2 l m)%js = true /\
    Forall (fun d => (d <= fold_left max2 l m)%js = true) l.
Proof.
  induction l as [|a l IH]; intros m Nm Hl.
  - cbn [fold_left]. split; [left; reflexivity|].
    split; [apply le_refl_number, Nm | constructor].
  - inversion Hl as [|? ? Na Hl']; subst. cbn [fold_left].
    assert (E : max2 m a = if (m < a)%js then a else m).
    { destruct m, a; try discriminate; reflexivity. }
    rewrite E. destruct (m < a)%js eqn:L.
    + destruct (IH a Na Hl') as (Hin & Hle & Hall).
      split; [right; exact Hin|]. split.
      * apply le_trans with a; [apply lt_le, L | exact Hle].
      * constructor; assumption.
    + destruct (IH m Nm Hl') as (Hin & Hle & Hall).
      split; [destruct Hin as [Hin|Hin]; [left; exact Hin | right; right; exact Hin]|].
      split; [exact Hle|].
      constructor; [|exact Hall].
      apply le_trans with m; [apply lt_false_le; assumption | exact Hle].
Qed.

Lemma Qc_div_nonneg (p q : Qc) : (0 <= p)%Qc -> (0 < q)%Qc -> (0 <= p / q)%Qc.
Proof.
  intros Hp Hq. unfold Qcdiv.
  replace 0%Qc with (0 * / q)%Qc at 1 by ring.
  apply Qcmult_le_compat_r; [exact Hp|].
  assert (E : (this (/ q)%Qc == / this q)%Q)
    by (unfold Qcinv, Q2Qc; cbn [this]; apply Qred_correct).
  unfold Qcle, Qclt in *. rewrite E.
  change (this 0%Qc) with 0%Q in *.
  apply Qlt_le_weak, Qinv_lt_0_compat, Hq.
Qed.

Lemma ofNat_succ_positive (n : nat) :
  exists q, JsNumber.ofNat (S n) = Fin q /\ (0 < q)%Qc.
Proof.
  eexists. split; [reflexivity|].
  unfold Qclt, Q2Qc. cbn [this]. rewrite !Qred_correct.
  change 0%Q with (inject_Z 0). rewrite <- Zlt_Qlt. lia.
Qed.

(** An absolute value that is a number is not negative; sums and means
    of such numbers are not negative either. *)
Lemma abs_nonneg (a : number) :
  isNaN (abs a) = false -> (zero <= abs a)%js = true.
Proof.
  destruct a as [|s|q]; cbn [abs isNaN]; intro H;
    [discriminate H | reflexivity |].
  unfold le, zero, ofZ. change (Q2Qc (inject_Z 0)) with 0%Qc.
  apply Qc_leb_spec, Qcabs_nonneg.
Qed.

Lemma add_nonneg (a b : number) :
  (zero <= a)%js = true -> (zero <= b)%js = true ->
  (zero <= a + b)%js = true.
Proof.
  destruct a as [|s|p], b as [|t|q]; unfold le, add, zero, ofZ;
    change (Q2Qc (inject_Z 0)) with 0%Qc; try discriminate.
  - intros Hs Ht. apply negb_true_iff in Hs, Ht. subst. reflexivity.
  - intros Hs _. exact Hs.
  - intros _ Ht. exact Ht.
  - intros Hp Hq. apply Qc_leb_spec in Hp, Hq. apply Qc_leb_spec.
    replace 0%Qc with (0 + 0)%Qc at 1 by ring.
    apply Qcplus_le_compat; assumption.
Qed.

Lemma fold_add_nonneg (l : list number) :
  forall acc,
    (zero <= acc)%js = true ->
    Forall (fun d => (zero <= d)%js = true) l ->
    (zero <= fold_left add l acc)%js = true.
Proof.
  induction l as [|a l IH]; intros acc Hacc Hl; [exact Hacc|].
  inversion Hl as [|? ? Ha Hl']; subst. cbn [fold_left].
  apply IH; [apply add_nonneg; assumption | exact Hl'].
Qed.

Lemma div_count_nonneg (a : number) (n : nat) :
  (zero <= a)%js = true -> (zero <= a / JsNumber.ofNat (S n))%js = true.
Proof.
  intro H. destruct (ofNat_succ_positive n) as (q & -> & Hq).
  assert (Hlt : Qc_ltb q 0 = false).
  { destruct (Qc_ltb q 0) eqn:E; [|reflexivity].
    apply Qc_ltb_spec in E. exfalso. exact (Qclt_not_le _ _ E (Qclt_le_weak _ _ Hq)). }
  assert (Heq : Qc_eqb q 0 = false).
  { destruct (Qc_eqb q 0) eqn:E; [|reflexivity].
    apply Qc_eqb_spec in E. subst q. exfalso. exact (Qclt_not_eq _ _ Hq eq_refl). }
  destruct a as [|s|p]; unfold le, div, zero, ofZ in *;
    change (Q2Qc (inject_Z 0)) with 0%Qc in *.
  - discriminate H.
  - apply negb_true_iff in H. subst s. rewrite Hlt. reflexivity.
  - rewrite Heq. apply Qc_leb_spec. apply Qc_leb_spec in H.
    apply Qc_div_nonneg; assumption.
Qed.

Lemma fold_add_NaN (l : list number) : fold_left add l NaN = NaN.
Proof. induction l as [|a l IH]; [reflexivity | exact IH]. Qed.

Lemma fold_add_Exists_NaN (l : list number) :
  forall acc,
    Exists (fun d => isNaN d = true) l -> fold_left add l acc = NaN.
Proof.
  induction l as [|a l IH]; intros acc H;
    inversion H as [? ? Ha|? ? Hl]; subst; cbn [fold_left].
  - destruct a; try discriminate Ha. rewrite add_NaN_r. apply fold_add_NaN.
  - apply IH, Hl.
Qed.

(** X17: the two deviations of the panel, for a raw series that is not
    empty.  When no deviation is [NaN], the maximum shown is the deviation
    of one of the samples, no deviation is above it, and the average shown
    is not negative.  As soon as one deviation is [NaN], both the maximum
    and the average are [NaN]. *)
Theorem deviation_statistics cal rawData :
  rawData <> [] ->
  exists st,
    StatisticsPanel Date_getTime cal rawData = Some st /\
    (Forall (fun row => isNaN (deviation row) = false)
            (rawWithCalibration cal rawData) ->
     (exists row,
         In row (rawWithCalibration cal rawData) /\
         maxDeviation st = deviation row) /\
     Forall (fun row => (deviation row <= maxDeviation st)%js = true)
            (rawWithCalibration cal rawData) /\
     (zero <= avgDeviation st)%js = true) /\
    (Exists (fun row => isNaN (deviation row) = true)
            (rawWithCalibration cal rawData) ->
     maxDeviation st = NaN /\ avgDeviation st = NaN).
Proof.
  intro Hne. eexists. split.
  { apply StatisticsPanel_some. right. exact Hne. }
  cbn [maxDeviation avgDeviation].
  assert (Habs : Forall (fun row => exists a, deviation row = abs a)
                        (rawWithCalibration cal rawData)).
  { unfold rawWithCalibration. apply Forall_map, Forall_forall.
    intros item _. unfold withCalibration. cbn [deviation]. eauto. }
  assert (Hrows : rawWithCalibration cal rawData <> []).
  { unfold rawWithCalibration. destruct rawData; [congruence | discriminate]. }
  rewrite (average_mean deviation _ Hrows).
  destruct (rawWithCalibration cal rawData) as [|row rows]; [congruence|].
  unfold mean, Math_max. cbn [map fold_left List.length].
  rewrite max2_from_bottom. split.
  - intro Hnum. inversion Hnum as [|? ? N0 Hnum']; subst.
    assert (Hd : Forall (fun d => isNaN d = false) (map deviation rows))
      by (apply Forall_map; exact Hnum').
    destruct (fold_max_bounds (map deviation rows) (deviation row) N0 Hd)
      as (Hin & Hle & Hall).
    split; [|split].
    + destruct Hin as [E|Hin].
      * exists row. split; [left; reflexivity | symmetry; exact E].
      * apply in_map_iff in Hin. destruct Hin as (r & E & Ir).
        exists r. split; [right; exact Ir | symmetry; exact E].
    + constructor; [exact Hle|]. apply Forall_map in Hall. exact Hall.
    + apply div_count_nonneg.
      apply (fold_add_nonneg (map deviation rows)).
      * apply add_nonneg; [reflexivity|].
        inversion Habs as [|? ? [a Ea] _]; subst.
        rewrite Ea. apply abs_nonneg. rewrite <- Ea. exact N0.
      * apply Forall_map. inversion Habs as [|? ? _ Habs']; subst.
        rewrite Forall_forall in Habs', Hnum'. apply Forall_forall.
        intros r Ir. destruct (Habs' r Ir) as [a Ea].
        rewrite Ea. apply abs_nonneg. rewrite <- Ea. apply Hnum', Ir.
  - intro Hex. inversion Hex as [? ? N0|? ? Hex']; subst.
    + destruct (deviation row); try discriminate N0.
      change (zero + NaN)%js with NaN.
      rewrite fold_max_NaN, fold_add_NaN. split; reflexivity.
    + assert (Hd : Exists (fun d => isNaN d = true) (map deviation rows))
        by (apply Exists_map; exact Hex').
      rewrite (fold_max_Exists_NaN _ _ Hd), (fold_add_Exists_NaN _ _ Hd).
      split; reflexivity.
Qed.

Lemma rawDataWithTimestamp_filter cal rawData :
  map originalName (rawDataWithTimestamp Date_getTime cal rawData) =
  map name (filter (labelParses Date_getTime) rawData) /\
  map liters (rawDataWithTimestamp Date_getTime cal rawData) =
  map (fun item => convertSensorCodeToLiters cal (y item))
      (filter (labelParses Date_getTime) rawData).
Proof.
  induction rawData as [|item rest [IH1 IH2]]; [split; reflexivity|].
  cbn [rawDataWithTimestamp filter]. unfold withTimestamp.
  replace (labelParses Date_getTime item)
    with (match parseDateTime Date_getTime (name item) with
          | Ok _ => true
          | Throw _ => false
          end) by reflexivity.
  destruct (parseDateTime Date_getTime (name item)); cbn [map originalName liters];
    rewrite ?IH1, ?IH2; split; reflexivity.
Qed.

(** X18: the samples of the chart are the raw samples whose labels are
    accepted, in the order of the raw series; each carries its label and
    the conversion of its code, and which samples appear does not depend on
    the calibration curve. *)
Theorem chart_samples_follow_raw_series cal cal' rawData :
  map originalName (rawDataWithTimestamp Date_getTime cal rawData) =
  map name (filter (labelParses Date_getTime) rawData) /\
  map liters (rawDataWithTimestamp Date_getTime cal rawData) =
  map (fun item => convertSensorCodeToLiters cal (y item))
      (filter (labelParses Date_getTime) rawData) /\
  map time (rawDataWithTimestamp Date_getTime cal rawData) =
  map time (rawDataWithTimestamp Date_getTime cal' rawData) /\
  (List.length (rawDataWithTimestamp Date_getTime cal rawData)
   <= List.length rawData)%nat.
Proof.
  assert (Htime :
            map time (rawDataWithTimestamp Date_getTime cal rawData) =
            map time (rawDataWithTimestamp Date_getTime cal' rawData)).
  { induction rawData as [|item rest IH]; [reflexivity|].
    cbn [rawDataWithTimestamp]. unfold withTimestamp.
    destruct (parseDateTime Date_getTime (name item)); cbn [map time];
      rewrite IH; reflexivity. }
  destruct (rawDataWithTimestamp_filter cal rawData) as [H1 H2].
  split; [exact H1|]. split; [exact H2|]. split; [exact Htime|].
  rewrite <- (length_map originalName), H1, length_map. apply filter_length_le.
Qed.

End DeviationFacts.

Lemma deviation_statistics_witness :
  exists st,
    ChartPage.StatisticsPanel millisOfDay
      [point 0 0; point 100 10; point 200 20]
      [sample 0 "28.06.2025 07:03:29" 30; sample 1 "not-a-date" 180] = Some st /\
    (Forall (fun row => isNaN (ChartPage.deviation row) = false)
            (ChartPage.rawWithCalibration
               [point 0 0; point 100 10; point 200 20]
               [sample 0 "28.06.2025 07:03:29" 30; sample 1 "not-a-date" 180]) ->
     (exists row,
         In row (ChartPage.rawWithCalibration
                   [point 0 0; point 100 10; point 200 20]
                   [sample 0 "28.06.2025 07:03:29" 30;
                    sample 1 "not-a-date" 180]) /\
         ChartPage.maxDeviation st = ChartPage.deviation row) /\
     Forall (fun row =>
               (ChartPage.deviation row <= ChartPage.maxDeviation st)%js = true)
            (ChartPage.rawWithCalibration
               [point 0 0; point 100 10; point 200 20]
               [sample 0 "28.06.2025 07:03:29" 30; sample 1 "not-a-date" 180]) /\
     (zero <= ChartPage.avgDeviation st)%js = true) /\
    (Exists (fun row => isNaN (ChartPage.deviation row) = true)
            (ChartPage.rawWithCalibration
               [point 0 0; point 100 10; point 200 20]
               [sample 0 "28.06.2025 07:03:29" 30; sample 1 "not-a-date" 180]) ->
     ChartPage.maxDeviation st = NaN /\ ChartPage.avgDeviation st = NaN).
Proof.
  apply (deviation_statistics millisOfDay
           [point 0 0; point 100 10; point 200 20]
           [sample 0 "28.06.2025 07:03:29" 30; sample 1 "not-a-date" 180]).
  discriminate.
Defined.

(** ** The labels that [parseDateTime] accepts *)

Section DateFacts.

Import ChartPage.

Variable Date_getTime :
  number -> number -> number -> number -> number -> number -> number.

Lemma split_lacks (sep : ascii) (s : string) :
  lacks sep s = true -> JsString.split sep s = [s]%list.
Proof.
  induction s as [|c s IH]; [reflexivity|].
  cbn [lacks JsString.split]. intro H. apply andb_true_iff in H.
  destruct H as [Hc Hs]. apply negb_true_iff in Hc. rewrite Hc, (IH Hs).
  reflexivity.
Qed.

Lemma split_append (sep : ascii) (a b : string) :
  lacks sep a = true ->
  JsString.split sep (String.append a (String sep b)) = a :: JsString.split sep b.
Proof.
  induction a as [|c a IH]; cbn [lacks String.append JsString.split].
  - intros _. rewrite Ascii.eqb_refl. reflexivity.
  - intro H. apply andb_true_iff in H. destruct H as [Hc Ha].
    apply negb_true_iff in Hc. rewrite Hc, (IH Ha). reflexivity.
Qed.

Lemma lacks_append (c : ascii) (a b : string) :
  lacks c (String.append a b) = lacks c a && lacks c b.
Proof.
  induction a as [|d a IH]; [reflexivity|].
  cbn [String.append lacks]. rewrite IH. apply andb_assoc.
Qed.

Lemma plainField_lacks (s : string) :
  plainField s = true ->
  lacks " " s = true /\ lacks "." s = true /\ lacks ":" s = true.
Proof.
  induction s as [|c s IH]; [repeat split|].
  cbn [plainField lacks]. intro H.
  apply andb_true_iff in H. destruct H as [H Hs].
  apply andb_true_iff in H. destruct H as [H Hcolon].
  apply andb_true_iff in H. destruct H as [Hws Hdot].
  destruct (IH Hs) as (L1 & L2 & L3). rewrite L1, L2, L3, Hdot, Hcolon.
  repeat split. rewrite andb_true_r.
  destruct (Ascii.eqb c " ") eqn:E; [|reflexivity].
  apply Ascii.eqb_eq in E. subst c. discriminate Hws.
Qed.

Lemma trimStart_plain (d rest : string) (c : ascii) :
  plainField d = true -> JsString.isWhiteSpace c = false ->
  JsString.trimStart (String.append d (String c rest)) =
  String.append d (String c rest).
Proof.
  intros Hd Hc. destruct d as [|c0 d]; cbn [String.append JsString.trimStart].
  - rewrite Hc. reflexivity.
  - cbn [plainField] in Hd. repeat (apply andb_true_iff in Hd; destruct Hd as [Hd _]).
    apply negb_true_iff in Hd. rewrite Hd. reflexivity.
Qed.

Lemma trimEnd_cons (c : ascii) (s : string) :
  JsString.trimEnd s = s ->
  JsString.isWhiteSpace c = false \/ JsString.isEmpty s = false ->
  JsString.trimEnd (String c s) = String c s.
Proof.
  intros Hs H. cbn [JsString.trimEnd]. rewrite Hs.
  destruct H as [H|H]; rewrite H; [|rewrite andb_false_r]; reflexivity.
Qed.

Lemma isEmpty_append (a s : string) :
  JsString.isEmpty s = false -> JsString.isEmpty (String.append a s) = false.
Proof. destruct a; [tauto | reflexivity]. Qed.

Lemma trimEnd_append (a s : string) :
  JsString.trimEnd s = s -> JsString.isEmpty s = false ->
  JsString.trimEnd (String.append a s) = String.append a s.
Proof.
  intros Hs Hne. induction a as [|c a IH]; [exact Hs|].
  cbn [String.append]. apply trimEnd_cons; [exact IH|].
  right. apply isEmpty_append, Hne.
Qed.

Lemma trimEnd_plain (s : string) : plainField s = true -> JsString.trimEnd s = s.
Proof.
  induction s as [|c s IH]; [reflexivity|].
  cbn [plainField]. intro H.
  apply andb_true_iff in H. destruct H as [H Hs].
  repeat (apply andb_true_iff in H; destruct H as [H _]).
  apply negb_true_iff in H. apply trimEnd_cons; [apply IH, Hs | left; exact H].
Qed.

Lemma append_cons_assoc (a b rest : string) (c : ascii) :
  String.append a (String c (String.append b rest)) =
  String.append (String.append a (String c b)) rest.
Proof.
  induction a as [|d a IH]; [reflexivity|].
  cbn [String.append]. rewrite IH. reflexivity.
Qed.

(** X19: a label of the shape D.M.Y H:M:S is accepted whatever its six
    fields hold, as long as they hold no white space, dot or colon: the
    fields are read with [parseInt] and handed to the clock, the month
    lowered by one; no field is checked for being a number or for its
    range. *)
Theorem date_label_accepted d m yr h mi s :
  plainField d = true -> plainField m = true -> plainField yr = true ->
  plainField h = true -> plainField mi = true -> plainField s = true ->
  parseDateTime Date_getTime (dateLabel d m yr h mi s) =
  Ok (Date_getTime (JsString.parseInt yr) (JsString.parseInt m - one)%js
        (JsString.parseInt d) (JsString.parseInt h) (JsString.parseInt mi)
        (JsString.parseInt s)).
Proof.
  intros Hd Hm Hy Hh Hmi Hs.
  destruct (plainField_lacks d Hd) as (Sd & Dd & _).
  destruct (plainField_lacks m Hm) as (Sm & Dm & _).
  destruct (plainField_lacks yr Hy) as (Sy & Dy & _).
  destruct (plainField_lacks h Hh) as (Sh & _ & Ch).
  destruct (plainField_lacks mi Hmi) as (Smi & _ & Cmi).
  destruct (plainField_lacks s Hs) as (Ss & _ & Cs).
  set (timePart := String.append h (String ":" (String.append mi (String ":" s)))).
  set (datePart := String.append d (String "." (String.append m (String "." yr)))).
  assert (Htrim : JsString.trim (dateLabel d m yr h mi s) =
                  String.append datePart (String " " timePart)).
  { unfold JsString.trim, dateLabel.
    rewrite (trimStart_plain d _ "." Hd eq_refl).
    assert (T0 : JsString.trimEnd (String ":" s) = String ":" s)
      by (apply trimEnd_cons; [apply trimEnd_plain, Hs | left; reflexivity]).
    assert (T1 : JsString.trimEnd timePart = timePart).
    { unfold timePart. apply trimEnd_append; [|reflexivity].
      apply trimEnd_cons; [|left; reflexivity].
      apply trimEnd_append; [exact T0 | reflexivity]. }
    assert (N1 : JsString.isEmpty timePart = false)
      by (apply isEmpty_append; reflexivity).
    assert (T2 : JsString.trimEnd (String " " timePart) = String " " timePart)
      by (apply trimEnd_cons; [exact T1 | right; exact N1]).
    fold timePart.
    rewrite trimEnd_append.
    - rewrite (append_cons_assoc m yr), (append_cons_assoc d). reflexivity.
    - apply trimEnd_cons; [|left; reflexivity].
      apply trimEnd_append; [|reflexivity].
      apply trimEnd_cons; [|left; reflexivity].
      apply trimEnd_append; [exact T2 | reflexivity].
    - reflexivity. }
  unfold parseDateTime. rewrite Htrim.
  rewrite split_append.
  2:{ unfold datePart. rewrite lacks_append. cbn [lacks].
      rewrite lacks_append. cbn [lacks]. rewrite Sd, Sm, Sy. reflexivity. }
  rewrite (split_lacks " " timePart).
  2:{ unfold timePart. rewrite lacks_append. cbn [lacks].
      rewrite lacks_append. cbn [lacks]. rewrite Sh, Smi, Ss. reflexivity. }
  unfold datePart, timePart.
  rewrite (split_append "." d _ Dd), (split_append "." m _ Dm),
    (split_lacks "." yr Dy).
  rewrite (split_append ":" h _ Ch), (split_append ":" mi _ Cmi),
    (split_lacks ":" s Cs).
  reflexivity.
Qed.

(** X20: a label without a blank inside is refused: [parseDateTime] throws
    and names the label in its message. *)
Theorem date_label_without_blank label :
  lacks " " (JsString.trim label) = true ->
  parseDateTime Date_getTime label = Throw (malformedDate label).
Proof.
  intro H. unfold parseDateTime. rewrite (split_lacks _ _ H). reflexivity.
Qed.

End DateFacts.

Lemma date_label_accepted_witness :
  ChartPage.parseDateTime millisOfDay (dateLabel "31" "13" "x" "25" "61" "") =
  Ok (millisOfDay (JsString.parseInt "x") (JsString.parseInt "13" - one)%js
        (JsString.parseInt "31") (JsString.parseInt "25") (JsString.parseInt "61")
        (JsString.parseInt "")).
Proof.
  apply (date_label_accepted millisOfDay "31" "13" "x" "25" "61" "");
    reflexivity.
Defined.

Lemma date_label_without_blank_witness :
  ChartPage.parseDateTime millisOfDay "28.06.2025T07:03:29" =
  Throw (ChartPage.malformedDate "28.06.2025T07:03:29").
Proof.
  apply (date_label_without_blank millisOfDay "28.06.2025T07:03:29").
  reflexivity.
Defined.

(** ** The page over sequences of events *)

Section PageFacts.

Variable parseFromString : string -> DataUploader.XMLDocument.

(** A property that holds at the start and that every event keeps holds
    after every sequence of events. *)
Lemma run_invariant (P : Page.State -> Prop) :
  (forall st e, P st -> P (Page.step parseFromString st e)) ->
  forall events st, P st -> P (Page.run parseFromString st events).
Proof.
  intros Hstep. induction events as [|e events IH]; intros st H; [exact H|].
  simpl. apply IH, Hstep, H.
Qed.


(** A file that is read in the render in which it was chosen is the
    upload of [Page.step]. *)
Lemma onload_at_once (st : Page.State) (xmlText : string) :
  Page.onload parseFromString (DataUploader.volumeDivider (fst st)) st xmlText
  = Page.step parseFromString st (Page.CalibrationUpload xmlText).
Proof.
  destruct st as [uploader chart]. cbn [fst Page.onload Page.step].
  unfold DataUploader.handleCalibrationUpload.
  destruct (DataUploader.parseCalibrationXML parseFromString
              (DataUploader.volumeDivider uploader) xmlText) as [data date].
  destruct data; reflexivity.
Qed.


(** X22: with a document stored, entering the same divisor twice in a row
    leaves the page with the volumes of the document divided by that
    divisor. *)
Theorem repeated_divider_change_settles st divider :
  JsString.isEmpty (DataUploader.lastXmlData (fst st)) = false ->
  let st' :=
    Page.run parseFromString st
      [Page.DividerChange divider; Page.DividerChange divider] in
  ChartPage.calibrationData (snd st') =
  fst (DataUploader.parseCalibrationXML parseFromString divider
         (DataUploader.lastXmlData (fst st))) /\
  ChartPage.volumeDivider (snd st') = divider /\
  DataUploader.volumeDivider (fst st') = divider /\
  DataUploader.lastXmlData (fst st') = DataUploader.lastXmlData (fst st).
Proof.
  destruct st as [uploader chart]. cbn [fst]. intro Hx.
  cbn [Page.run fold_left Page.step].
  rewrite (handleDividerChange_previous_divider _ uploader divider Hx).
  cbv beta iota zeta. cbn [Page.step].
  rewrite (handleDividerChange_previous_divider _
             {| DataUploader.volumeDivider := divider;
                DataUploader.lastXmlData := DataUploader.lastXmlData uploader |}
             divider Hx).
  cbn. repeat split.
Qed.

(** X23: when every document that can be loaded has integer codes, the
    curve of the page has codes that never decrease, whatever the events
    were. *)
Theorem page_curve_always_sorted events :
  (forall xmlText, integerCodes (parseFromString xmlText)) ->
  nonDecreasing
    (ChartPage.calibrationData
       (snd (Page.run parseFromString Page.initialState events))).
Proof.
  intro Hvalid.
  apply (run_invariant
           (fun st => nonDecreasing (ChartPage.calibrationData (snd st)))).
  - intros [uploader chart] e Hinv.
    assert (Hparse : forall d t,
               nonDecreasing
                 (fst (DataUploader.parseCalibrationXML parseFromString d t))).
    { intros d t. unfold DataUploader.parseCalibrationXML. cbn [fst].
      apply Array_sort_nonDecreasing, collect_finite, Hvalid. }
    destruct e as [xmlText|newDivider|csvText]; cbn [Page.step].
    + unfold DataUploader.handleCalibrationUpload.
      pose proof (Hparse (DataUploader.volumeDivider uploader) xmlText) as Hs.
      destruct (DataUploader.parseCalibrationXML parseFromString
                  (DataUploader.volumeDivider uploader) xmlText)
        as [data date].
      destruct data as [|p data]; [exact Hinv | exact Hs].
    + unfold DataUploader.handleDividerChange.
      destruct (JsString.isEmpty (DataUploader.lastXmlData uploader));
        cbn [negb]; [exact Hinv|].
      pose proof (Hparse (DataUploader.volumeDivider uploader)
                    (DataUploader.lastXmlData uploader)) as Hs.
      destruct (DataUploader.parseCalibrationXML parseFromString
                  (DataUploader.volumeDivider uploader)
                  (DataUploader.lastXmlData uploader)) as [data date].
      exact Hs.
    + destruct (DataUploader.handleRawDataUpload csvText); exact Hinv.
  - constructor.
Qed.

Lemma parseRows_indices (dataLines : list string) :
  forall index points,
    DataUploader.parseRows index dataLines = Ok points ->
    map x points = map JsNumber.ofNat (seq index (List.length points)).
Proof.
  induction dataLines as [|line rest IH]; intros index points H.
  - injection H as <-. reflexivity.
  - cbn [DataUploader.parseRows] in H.
    destruct (DataUploader.fields line) as [|dateTime [|field1 others]];
      try discriminate H.
    destruct (DataUploader.parseRows (S index) rest) as [tail|] eqn:E;
      [|discriminate H].
    injection H as <-. cbn [map List.length seq x].
    rewrite (IH (S index) tail E). reflexivity.
Qed.

(** X24: whatever the events were, the raw series of the page has no
    [NaN] code and its samples are numbered 0, 1, 2, ... in order. *)
Theorem page_raw_series_well_formed events :
  let series :=
    ChartPage.rawData
      (snd (Page.run parseFromString Page.initialState events)) in
  Forall (fun item => isNaN (y item) = false) series /\
  map x series = map JsNumber.ofNat (seq 0 (List.length series)).
Proof.
  apply (run_invariant
           (fun st =>
              Forall (fun item => isNaN (y item) = false)
                     (ChartPage.rawData (snd st)) /\
              map x (ChartPage.rawData (snd st)) =
              map JsNumber.ofNat
                  (seq 0 (List.length (ChartPage.rawData (snd st)))))).
  - intros [uploader chart] e Hinv.
    destruct e as [xmlText|newDivider|csvText]; cbn [Page.step].
    + destruct (DataUploader.handleCalibrationUpload parseFromString uploader
                  xmlText) as [u' [call|]]; exact Hinv.
    + destruct (DataUploader.handleDividerChange parseFromString uploader
                  newDivider) as [u' [call|]]; exact Hinv.
    + unfold DataUploader.handleRawDataUpload.
      destruct (DataUploader.parseRawDataCSV csvText) as [data|m] eqn:E;
        [|exact Hinv].
      destruct data as [|p data]; [exact Hinv|].
      destruct (parseRawDataCSV_keeps_every_row _ _ E) as [Hrows _].
      cbn [snd ChartPage.handleRawDataChange ChartPage.rawData]. split.
      * apply (parseRows_shape _ _ _ Hrows).
      * apply (parseRows_indices _ _ _ Hrows).
  - split; [constructor | reflexivity].
Qed.

End PageFacts.

Section DividerFieldFacts.

Import DataUploader.

Lemma or_else_one_truthy (a : number) : truthy (or_else a one) = true.
Proof.
  unfold or_else. destruct (truthy a) eqn:E; [exact E | reflexivity].
Qed.

(** X26: the divisor that the field hands over is never [NaN] and never
    0, whatever text the field holds; so a body that holds an integer
    never gives the volume [NaN]. *)
Theorem divider_field_gives_usable_divisor value :
  truthy (dividerOfInput value) = true /\
  forall body,
    isFinite (JsString.parseInt body) = true ->
    isNaN (JsString.parseInt body / dividerOfInput value)%js = false.
Proof.
  pose proof (or_else_one_truthy (JsString.parseFloat value)) as T.
  split; [exact T|].
  intros body Hb. apply isFinite_Fin in Hb. destruct Hb as [p ->].
  unfold dividerOfInput.
  destruct (or_else (JsString.parseFloat value) one) as [|s|q];
    [discriminate T | reflexivity |].
  unfold div. cbn [truthy] in T. apply negb_true_iff in T. rewrite T.
  reflexivity.
Qed.

End DividerFieldFacts.


Lemma repeated_divider_change_settles_witness :
  map y
    (ChartPage.calibrationData
       (snd (Page.run (fun _ => oneEntry)
               (Page.run (fun _ => oneEntry) Page.initialState
                  [Page.CalibrationUpload exampleXml])
               [Page.DividerChange (ofZ 5); Page.DividerChange (ofZ 5)]))) =
  [ofZ 20]%list.
Proof.
  destruct (repeated_divider_change_settles (fun _ => oneEntry)
              (Page.run (fun _ => oneEntry) Page.initialState
                 [Page.CalibrationUpload exampleXml]) (ofZ 5) eq_refl)
    as [H _].
  rewrite H. numbers_eq.
Defined.

Lemma page_curve_always_sorted_witness :
  nonDecreasing
    (ChartPage.calibrationData
       (snd (Page.run (fun _ => duplicateCodes) Page.initialState
               [Page.DividerChange (ofZ 10); Page.CalibrationUpload exampleXml;
                Page.RawDataUpload malformedRow]))).
Proof.
  apply (page_curve_always_sorted (fun _ => duplicateCodes)).
  intros _ e c Hin Hc _. simpl in Hin.
  destruct Hin as [<-|[<-|[<-|[<-|[]]]]]; injection Hc as <-; reflexivity.
Defined.

(** ** The export *)

Section ExportFacts.

Import ChartPage.

Variable Date_getTime :
  number -> number -> number -> number -> number -> number -> number.
Variable toString : number -> string.
Variable toFixed : number -> nat -> string.

Lemma find_first {A : Type} (f : A -> bool) (l1 l2 : list A) (a : A) :
  (forall r, In r l1 -> f r = false) -> f a = true ->
  find f (l1 ++ a :: l2) = Some a.
Proof.
  intros H1 Ha. induction l1 as [|r l1 IH]; simpl.
  - rewrite Ha. reflexivity.
  - rewrite (H1 r (or_introl eq_refl)). apply IH.
    intros r' Hr'. apply H1. right. exact Hr'.
Qed.

(** X27: the line of a sample in the export shows the code of the first
    raw sample that carries the same label, with 0 in the place of a code
    that is 0 or [NaN]: when a label occurs twice, both lines show the code
    of the first occurrence, next to the volume of their own sample. *)
Theorem export_line_shows_first_code_of_label rawData l1 a l2 d :
  rawData = l1 ++ a :: l2 ->
  (forall r, In r l1 -> name r <> originalName d) ->
  name a = originalName d ->
  measurementRow toString toFixed rawData d =
  String.concat ","
    ["Измерение"; originalName d; toString (or_else (y a) zero);
     toFixed (liters d) 1]%string.
Proof.
  intros -> Hbefore Ha. unfold measurementRow, exportedCode.
  rewrite (find_first _ l1 l2 a).
  - reflexivity.
  - intros r Hr. apply String.eqb_neq, Hbefore, Hr.
  - apply String.eqb_eq, Ha.
Qed.

(** The export has one header line, one line for each calibration point
    and one line for each raw sample whose label is accepted. *)
Lemma export_line_count st :
  List.length (exportRows Date_getTime toString toFixed st) =
  (1 + List.length (calibrationData st) +
   List.length (filter (labelParses Date_getTime) (rawData st)))%nat.
Proof.
  unfold exportRows. cbn [List.length].
  rewrite length_app, !length_map.
  destruct (rawDataWithTimestamp_filter Date_getTime (calibrationData st)
              (rawData st)) as [H _].
  rewrite <- (length_map originalName), H, length_map. lia.
Qed.

End ExportFacts.

Lemma export_line_shows_first_code_of_label_witness :
  ChartPage.measurementRow (fun _ => "code"%string) (fun _ _ => "liters"%string)
    [sample 0 "28.06.2025 07:03:29" 2535; sample 1 "28.06.2025 07:03:29" 2000]
    {| ChartPage.time := ofZ 0; ChartPage.liters := ofZ 20;
       ChartPage.originalName := "28.06.2025 07:03:29" |} =
  String.concat ","
    ["Измерение"; "28.06.2025 07:03:29";
     (fun _ : number => "code") (or_else (ofZ 2535) zero);
     (fun (_ : number) (_ : nat) => "liters") (ofZ 20) 1%nat]%string.
Proof.
  apply (export_line_shows_first_code_of_label
           (fun _ => "code"%string) (fun _ _ => "liters"%string)
           _ [] (sample 0 "28.06.2025 07:03:29" 2535)
           [sample 1 "28.06.2025 07:03:29" 2000]%list).
  - reflexivity.
  - intros r [].
  - reflexivity.
Defined.
